(** * Z.AI provider for the Claude Code transport: settings resolution

    A shallow embedding of the option-merging and model-alias logic of the
    provider ([createZaiClaudeCode], [mergeAllowedTools], [mergeStringLists],
    [normalizeCustomToolsOnlyOptions], [mergeMcpServers], [resolveModelId],
    [wrapProviderWithModelResolution], [forceCustomTools],
    [mergeSystemPromptAppend], [buildZaiEnv], [createZaiAnthropic]).

    Conventions of the embedding:
    - a JavaScript string is a [string], the sequence of the bytes of its
      UTF-8 encoding; [===] on strings is [=];
    - [T | undefined] is [option T]; the empty string is the only falsy
      string;
    - a function that may [throw] returns a [Completion];
    - an object used as a dictionary is a [gmap string _], except the alias
      table, whose iteration order matters and which is an association list
      in property-insertion order; the table comes with string values and,
      where a value [undefined] written by an override matters, with
      optional values (the definitions named [_partial]);
    - the external collaborators (the base provider built by
      [createClaudeCode], the tools' [execute] handlers, [streamText]) are
      parameters. *)

From Stdlib Require Import String Ascii.
From stdpp Require Import base option list strings gmap.

Open Scope string_scope.
Open Scope list_scope.

(** ** JavaScript values *)

(** [new Error(message)] *)
Inductive JsError := Err (message : string).

Inductive Completion (A : Type) :=
| Return (a : A)
| Throw (e : JsError).
Arguments Return {A} a.
Arguments Throw {A} e.

#[global] Instance Completion_ret : MRet Completion := λ A a, Return a.

#[global] Instance Completion_bind : MBind Completion := λ A B k c,
  match c with
  | Return a => k a
  | Throw e => Throw e
  end.

#[global] Instance Completion_fmap : FMap Completion := λ A B f c,
  match c with
  | Return a => Return (f a)
  | Throw e => Throw e
  end.

(** [Boolean(s)] for a string [s]: every string but the empty one is truthy. *)
Definition truthy (s : string) : bool :=
  match s with
  | EmptyString => false
  | String _ _ => true
  end.

(** [a ?? b] *)
Definition nullish {A} (a : option A) (b : A) : A :=
  match a with
  | Some x => x
  | None => b
  end.

(** [arr.includes(x)] on an array of strings *)
Definition includes (arr : list string) (x : string) : bool :=
  bool_decide (x ∈ arr).

(** The double-quote character of the error messages. *)
Definition dquote : string := String (ascii_of_nat 34) EmptyString.

(** ** Constants *)

Definition CLAUDE_ALIASES : list string := ["sonnet"; "opus"; "haiku"].

Definition DEFAULT_CUSTOM_TOOLS_SYSTEM_PROMPT : string :=
  "You are running inside the Claude Code CLI with only custom developer-provided tools available. NEVER call Bash, Task, Shell, or any CLI tool; those calls will fail. Only use the explicitly provided tools and wait for a user tool_result before responding.".

Definition DEFAULT_CUSTOM_TOOLS_DISALLOWED : list string := ["Bash(*)"; "Task(*)"].

Definition DEFAULT_MODEL_MAPPINGS : list (string * string) :=
  [("sonnet", "glm-4.6"); ("opus", "glm-4.6"); ("haiku", "glm-4.5-air")].

Definition CORE_ALLOWED_TOOLS : list string :=
  ["Bash"; "Read"; "Write"; "Edit"; "LS"; "Grep"; "Glob"; "TodoRead"; "TodoWrite"].

Definition WEB_SEARCH_ALLOWED_TOOLS : list string :=
  ["mcp__web-search-prime__webSearchPrime"].

Definition WEB_READER_ALLOWED_TOOLS : list string :=
  ["mcp__web-reader__webReader"; "WebFetch"].

Definition VISION_ALLOWED_TOOLS : list string :=
  ["mcp__zai-vision__image_analysis"; "mcp__zai-vision__video_analysis";
   "mcp__zai-vision__analyze_image"; "mcp__zai-vision__analyze_video"].

Definition WEB_SEARCH_SERVER : string := "https://api.z.ai/api/mcp/web_search_prime/mcp".
Definition WEB_READER_SERVER : string := "https://api.z.ai/api/mcp/web_reader/mcp".

(** ** Merging tool lists *)

(** [merged.length ? merged : undefined] *)
Definition lengthOrUndefined (merged : list string) : option (list string) :=
  match merged with
  | [] => None
  | _ :: _ => Some merged
  end.

(** One iteration of the [for (const tool of user)] loop of
    [mergeAllowedTools]; [merged] is the array being built. *)
Definition mergeAllowedTools_step (merged : list string) (tool : string) : list string :=
  if negb (truthy tool) || includes merged tool then merged
  else merged ++ [tool].

Definition mergeAllowedTools (defaults : list string) (user : option (list string))
  : option (list string) :=
  let merged := defaults in
  let merged :=
    match user with
    | Some ((_ :: _) as user) => foldl mergeAllowedTools_step merged user
    | _ => merged
    end in
  lengthOrUndefined merged.

(** One iteration of the [for (const entry of user)] loop of
    [mergeStringLists]. *)
Definition mergeStringLists_step (merged : list string) (entry : string) : list string :=
  if negb (truthy entry) || includes merged entry then merged
  else merged ++ [entry].

Definition mergeStringLists (defaults : list string) (user : option (list string))
  : option (list string) :=
  let merged := defaults in
  let merged :=
    match user with
    | Some ((_ :: _) as user) => foldl mergeStringLists_step merged user
    | _ => merged
    end in
  lengthOrUndefined merged.

(** The list the specification describes: the entries of [l] with every
    repetition after the first one removed. *)
Definition first_occurrences (l : list string) : list string :=
  reverse (remove_dups (reverse l)).

(** An entry of the user list is a candidate for appending when it is
    non-empty and not a member of the defaults. *)
Definition appendable (defaults : list string) (t : string) : Prop :=
  t ≠ EmptyString ∧ t ∉ defaults.

#[local] Instance appendable_dec defaults t : Decision (appendable defaults t).
Proof. unfold appendable. apply _. Defined.

Definition spec_merged (defaults : list string) (user : option (list string)) : list string :=
  defaults ++ first_occurrences (filter (appendable defaults) (default [] user)).

(** ** The alias table *)

Inductive ClaudeModelAlias := sonnet | opus | haiku.

Definition alias_name (a : ClaudeModelAlias) : string :=
  match a with
  | sonnet => "sonnet"
  | opus => "opus"
  | haiku => "haiku"
  end.

(** [o[k] = v] on an object: the properties of an object are enumerated in
    the order in which they were first set (none of the keys used here is an
    array index), and assigning an existing property keeps its position. *)
Fixpoint obj_set (k v : string) (o : list (string * string)) : list (string * string) :=
  match o with
  | [] => [(k, v)]
  | (k', v') :: rest =>
      if decide (k' = k) then (k', v) :: rest else (k', v') :: obj_set k v rest
  end.

(** [{ ...a, ...b }]: a fresh object receives the properties of [a], then
    those of [b]. *)
Definition obj_spread (a b : list (string * string)) : list (string * string) :=
  foldl (λ o kv, obj_set kv.1 kv.2 o) (foldl (λ o kv, obj_set kv.1 kv.2 o) [] a) b.

(** [o[k]] *)
Fixpoint obj_get (k : string) (o : list (string * string)) : option string :=
  match o with
  | [] => None
  | (k', v) :: rest => if decide (k' = k) then Some v else obj_get k rest
  end.

(** The properties of an [options.modelMappings] object, of type
    [Partial<Record<ClaudeModelAlias, string>>]: its keys are alias names. *)
Definition mapping_entries (modelMappings : option (list (ClaudeModelAlias * string)))
  : list (string * string) :=
  match modelMappings with
  | Some m => (λ kv, (alias_name kv.1, kv.2)) <$> m
  | None => []
  end.

(** [{ ...DEFAULT_MODEL_MAPPINGS, ...options.modelMappings }] *)
Definition effectiveMappings (modelMappings : option (list (ClaudeModelAlias * string)))
  : list (string * string) :=
  obj_spread DEFAULT_MODEL_MAPPINGS (mapping_entries modelMappings).

(** ** Resolving a model identifier *)

Definition unsupportedModelMessage (requestedId : string) : string :=
  "Unsupported model " +:+ dquote +:+ requestedId +:+ dquote +:+ ". Use one of "
  +:+ String.concat ", " CLAUDE_ALIASES
  +:+ " or provide a matching entry via modelMappings.".

(** The [for (const [alias, mappedId] of Object.entries(mappings))] loop:
    the alias of the first entry whose value is [requestedId]. *)
Fixpoint resolveModelId_scan (requestedId : string) (entries : list (string * string))
  : option string :=
  match entries with
  | [] => None
  | (alias, mappedId) :: rest =>
      if decide (mappedId = requestedId) then Some alias
      else resolveModelId_scan requestedId rest
  end.

Definition resolveModelId (requestedId : string) (mappings : list (string * string))
  : Completion string :=
  if includes CLAUDE_ALIASES requestedId then Return requestedId
  else
    match resolveModelId_scan requestedId mappings with
    | Some alias => Return alias
    | None => Throw (Err (unsupportedModelMessage requestedId))
    end.

(** The alias the specification names for a vendor identifier: the first
    entry of the table, in iteration order, that is mapped to it. *)
Definition first_alias_for (m : string) (table : list (string * string)) : option string :=
  fst <$> head (filter (λ kv, kv.2 = m) table).

(** ** The custom-tools-only policy *)

Record CustomToolsOnlyOptions := {
  cto_systemPrompt : option string;
  cto_appendSystemPrompt : option string;
  cto_allowedTools : option (list string);
  cto_disallowedTools : option (list string);
}.

(** [customToolsOnly?: boolean | CustomToolsOnlyOptions] *)
Inductive CustomToolsOnlyArg :=
| CtoFlag (b : bool)
| CtoOptions (o : CustomToolsOnlyOptions).

Record NormalizedCustomToolsOnlyOptions := {
  enabled : bool;
  n_allowedTools : list string;
  n_disallowedTools : list string;
  n_systemPrompt : option string;
  n_appendSystemPrompt : option string;
}.

(** The object [{}] read at the type [CustomToolsOnlyOptions] *)
Definition noCustomToolsOnlyOptions : CustomToolsOnlyOptions :=
  {| cto_systemPrompt := None; cto_appendSystemPrompt := None;
     cto_allowedTools := None; cto_disallowedTools := None |}.

(** [customToolsOnly === true ? {} : customToolsOnly], for a truthy argument *)
Definition customToolsOnly_options (customToolsOnly : CustomToolsOnlyArg)
  : CustomToolsOnlyOptions :=
  match customToolsOnly with
  | CtoFlag _ => noCustomToolsOnlyOptions
  | CtoOptions o => o
  end.

Definition normalizeCustomToolsOnlyOptions (customToolsOnly : option CustomToolsOnlyArg)
  : NormalizedCustomToolsOnlyOptions :=
  match customToolsOnly with
  | None | Some (CtoFlag false) =>
      {| enabled := false; n_allowedTools := []; n_disallowedTools := [];
         n_systemPrompt := None; n_appendSystemPrompt := None |}
  | Some customToolsOnly =>
      let options := customToolsOnly_options customToolsOnly in
      {| enabled := true;
         n_allowedTools := nullish (cto_allowedTools options) [];
         n_disallowedTools :=
           nullish (mergeStringLists DEFAULT_CUSTOM_TOOLS_DISALLOWED
                      (cto_disallowedTools options)) [];
         n_systemPrompt := cto_systemPrompt options;
         n_appendSystemPrompt := cto_appendSystemPrompt options |}
  end.

(** ** Auxiliary tool servers *)

Record VisionCommand := {
  vc_command : string;
  vc_args : option (list string);
  vc_env : option (gmap string (option string));
}.

(** A server-connection descriptor: [type: 'http'] or [type: 'stdio']. *)
Inductive McpServerConfig :=
| McpHttp (url : string) (headers : option (gmap string string))
| McpStdio (command : string) (args : option (list string))
    (env : option (gmap string (option string))).

Definition webSearchDescriptor (apiKey : string) : McpServerConfig :=
  McpHttp WEB_SEARCH_SERVER (Some {[ "Authorization" := "Bearer " +:+ apiKey ]}).

Definition webReaderDescriptor (apiKey : string) : McpServerConfig :=
  McpHttp WEB_READER_SERVER (Some {[ "Authorization" := "Bearer " +:+ apiKey ]}).

Definition visionDescriptor (apiKey : string) (visionCommand : option VisionCommand)
  : McpServerConfig :=
  let cmd := nullish visionCommand
               {| vc_command := "npx"; vc_args := Some ["-y"; "@z_ai/mcp-server"];
                  vc_env := None |} in
  McpStdio (vc_command cmd)
    (Some (nullish (vc_args cmd) ["-y"; "@z_ai/mcp-server"]))
    (Some (nullish (vc_env cmd) ∅
           ∪ <["Z_AI_API_KEY" := Some apiKey]> (<["Z_AI_MODE" := Some "ZAI"]> ∅))).

(** The object [defaults] of [mergeMcpServers] after its three conditional
    assignments. *)
Definition builtinMcpServers (apiKey : string)
    (enableVision enableWebReader enableWebSearch : bool)
    (visionCommand : option VisionCommand) : gmap string McpServerConfig :=
  let defaults : gmap string McpServerConfig := ∅ in
  let defaults :=
    if enableWebSearch
    then <["web-search-prime" := webSearchDescriptor apiKey]> defaults
    else defaults in
  let defaults :=
    if enableWebReader
    then <["web-reader" := webReaderDescriptor apiKey]> defaults
    else defaults in
  let defaults :=
    if enableVision
    then <["zai-vision" := visionDescriptor apiKey visionCommand]> defaults
    else defaults in
  defaults.

Definition mergeMcpServers (apiKey : string)
    (enableVision enableWebReader enableWebSearch : bool)
    (userMcpServers : option (gmap string McpServerConfig))
    (visionCommand : option VisionCommand) : option (gmap string McpServerConfig) :=
  let defaults :=
    builtinMcpServers apiKey enableVision enableWebReader enableWebSearch visionCommand in
  match userMcpServers with
  | Some userMcpServers => Some (userMcpServers ∪ defaults)
  | None =>
      match size defaults with
      | 0 => None
      | S _ => Some defaults
      end
  end.

(** ** Settings *)

(** The fields of the transport's settings object that the provider
    computes from tool lists, prompts and servers.  ([env] and
    [appendSystemPrompt] are computed independently of these and are left
    to the transport.) *)
Record ClaudeCodeSettings := {
  permissionMode : option string;
  allowedTools : option (list string);
  disallowedTools : option (list string);
  systemPrompt : option string;
  mcpServers : option (gmap string McpServerConfig);
}.

(** The object [{}] read at the type [ClaudeCodeSettings] *)
Definition noSettings : ClaudeCodeSettings :=
  {| permissionMode := None; allowedTools := None; disallowedTools := None;
     systemPrompt := None; mcpServers := None |}.

Record CreateZaiClaudeCodeOptions := {
  apiKey : option string;
  modelMappings : option (list (ClaudeModelAlias * string));
  includeDefaultAllowedTools : option bool;
  enableWebSearchMcp : option bool;
  enableWebReaderMcp : option bool;
  enableVisionMcp : option bool;
  visionCommand : option VisionCommand;
  customToolsOnly : option CustomToolsOnlyArg;
  defaultSettings : option ClaudeCodeSettings;
}.

(** The object [{}] read at the type [CreateZaiClaudeCodeOptions] *)
Definition noOptions : CreateZaiClaudeCodeOptions :=
  {| apiKey := None; modelMappings := None; includeDefaultAllowedTools := None;
     enableWebSearchMcp := None; enableWebReaderMcp := None; enableVisionMcp := None;
     visionCommand := None; customToolsOnly := None; defaultSettings := None |}.

Definition missingApiKeyMessage : string :=
  "ZAI_API_KEY is required. Pass options.apiKey or set the env var.".

(** The first statements of [createZaiClaudeCode]:
    [const apiKey = options.apiKey ?? process.env.ZAI_API_KEY;
     if (!apiKey) throw ...].  [ZAI_API_KEY] is the value of the environment
    variable. *)
Definition createZaiClaudeCode_apiKey (explicit ZAI_API_KEY : option string)
  : Completion string :=
  let apiKey :=
    match explicit with
    | Some k => Some k
    | None => ZAI_API_KEY
    end in
  match apiKey with
  | Some k => if truthy k then Return k else Throw (Err missingApiKeyMessage)
  | None => Throw (Err missingApiKeyMessage)
  end.

(** [!allowedTools?.length] *)
Definition noLength (l : option (list string)) : bool :=
  match l with
  | Some (_ :: _) => false
  | _ => true
  end.

(** The object [resolvedSettings] of [createZaiClaudeCode]. *)
Definition createZaiClaudeCode_resolvedSettings (apiKey : string)
    (options : CreateZaiClaudeCodeOptions) : ClaudeCodeSettings :=
  let customToolsOnly := normalizeCustomToolsOnlyOptions (customToolsOnly options) in
  let includeDefaultTools := nullish (includeDefaultAllowedTools options) true in
  let enableWebSearch := nullish (enableWebSearchMcp options) true in
  let enableWebReader := nullish (enableWebReaderMcp options) true in
  let enableVision := nullish (enableVisionMcp options) true in
  let includeDefaultTools := if enabled customToolsOnly then false else includeDefaultTools in
  let enableWebSearch := if enabled customToolsOnly then false else enableWebSearch in
  let enableWebReader := if enabled customToolsOnly then false else enableWebReader in
  let enableVision := if enabled customToolsOnly then false else enableVision in
  let userDefaults := nullish (defaultSettings options) noSettings in
  let baselineAllowedTools :=
    if enabled customToolsOnly then n_allowedTools customToolsOnly
    else (if includeDefaultTools then CORE_ALLOWED_TOOLS else [])
         ++ (if enableWebSearch then WEB_SEARCH_ALLOWED_TOOLS else [])
         ++ (if enableWebReader then WEB_READER_ALLOWED_TOOLS else [])
         ++ (if enableVision then VISION_ALLOWED_TOOLS else []) in
  let allowedTools' := mergeAllowedTools baselineAllowedTools (allowedTools userDefaults) in
  let shouldApplyDisallowed :=
    if enabled customToolsOnly then noLength allowedTools' else true in
  let disallowedTools' :=
    if shouldApplyDisallowed
    then mergeStringLists
           (if enabled customToolsOnly then n_disallowedTools customToolsOnly else [])
           (disallowedTools userDefaults)
    else None in
  let systemPrompt' :=
    if enabled customToolsOnly
    then Some (nullish (n_systemPrompt customToolsOnly)
                 (nullish (systemPrompt userDefaults) DEFAULT_CUSTOM_TOOLS_SYSTEM_PROMPT))
    else systemPrompt userDefaults in
  {| permissionMode := Some (nullish (permissionMode userDefaults) "bypassPermissions");
     allowedTools := allowedTools';
     disallowedTools := disallowedTools';
     systemPrompt := systemPrompt';
     mcpServers :=
       mergeMcpServers apiKey enableVision enableWebReader enableWebSearch
         (mcpServers userDefaults) (visionCommand options) |}.

(** ** The provider and its wrapper *)

(** The entry points of a provider; [Model] is the type of model handles. *)
Record ClaudeCodeProvider (Model : Type) := {
  provider_call : string → option ClaudeCodeSettings → Completion Model;
  languageModel : string → option ClaudeCodeSettings → Completion Model;
  chat : string → option ClaudeCodeSettings → Completion Model;
  imageModel : string → Completion Model;
  textEmbeddingModel : string → Completion Model;
}.
Arguments provider_call {Model} _ _ _.
Arguments languageModel {Model} _ _ _.
Arguments chat {Model} _ _ _.
Arguments imageModel {Model} _ _.
Arguments textEmbeddingModel {Model} _ _.

Definition wrapProviderWithModelResolution {Model} (baseProvider : ClaudeCodeProvider Model)
    (mappings : list (string * string)) : ClaudeCodeProvider Model :=
  {| provider_call := λ modelId settings,
       resolved ← resolveModelId modelId mappings;
       provider_call baseProvider resolved settings;
     languageModel := λ modelId settings,
       resolved ← resolveModelId modelId mappings;
       languageModel baseProvider resolved settings;
     chat := λ modelId settings,
       resolved ← resolveModelId modelId mappings;
       chat baseProvider resolved settings;
     imageModel := imageModel baseProvider;
     textEmbeddingModel := textEmbeddingModel baseProvider |}.

Section CreateZaiClaudeCode.
Context {Model : Type}.
(** [createClaudeCode({ defaultSettings })] of the transport library *)
Variable createClaudeCode : ClaudeCodeSettings → ClaudeCodeProvider Model.

Definition createZaiClaudeCode (ZAI_API_KEY : option string)
    (options : CreateZaiClaudeCodeOptions) : Completion (ClaudeCodeProvider Model) :=
  apiKey ← createZaiClaudeCode_apiKey (apiKey options) ZAI_API_KEY;
  let modelMappings := effectiveMappings (modelMappings options) in
  let resolvedSettings := createZaiClaudeCode_resolvedSettings apiKey options in
  let baseProvider := createClaudeCode resolvedSettings in
  Return (wrapProviderWithModelResolution baseProvider modelMappings).
End CreateZaiClaudeCode.

(** A base provider that only records how it is invoked (the role a mock
    of the transport plays in the test-suite). *)
Inductive EntryPoint :=
| EpCall | EpLanguageModel | EpChat | EpImageModel | EpTextEmbeddingModel.

Record BaseInvocation := {
  inv_entry : EntryPoint;
  inv_modelId : string;
  inv_settings : option ClaudeCodeSettings;
  inv_defaultSettings : ClaudeCodeSettings;
}.

Definition recordingProvider (defaults : ClaudeCodeSettings)
  : ClaudeCodeProvider BaseInvocation :=
  {| provider_call := λ modelId settings,
       Return {| inv_entry := EpCall; inv_modelId := modelId;
                 inv_settings := settings; inv_defaultSettings := defaults |};
     languageModel := λ modelId settings,
       Return {| inv_entry := EpLanguageModel; inv_modelId := modelId;
                 inv_settings := settings; inv_defaultSettings := defaults |};
     chat := λ modelId settings,
       Return {| inv_entry := EpChat; inv_modelId := modelId;
                 inv_settings := settings; inv_defaultSettings := defaults |};
     imageModel := λ modelId,
       Return {| inv_entry := EpImageModel; inv_modelId := modelId;
                 inv_settings := None; inv_defaultSettings := defaults |};
     textEmbeddingModel := λ modelId,
       Return {| inv_entry := EpTextEmbeddingModel; inv_modelId := modelId;
                 inv_settings := None; inv_defaultSettings := defaults |} |}.

(** ** Forced tool injection *)

Section ForceCustomTools.
(** Tool inputs and results, model handles and the value [streamText]
    returns are opaque to the helper. *)
Variables Input Output Model Stream : Type.

Inductive ContentBlock :=
| ToolCallBlock (name : string) (args : Input)
| ToolResultBlock (name : string) (result : Output)
| TextBlock (text : string).

Inductive MessageContent :=
| TextContent (text : string)
| BlockContent (blocks : list ContentBlock).

Record CoreMessage := { role : string; content : MessageContent }.

(** The second argument of a tool's [execute] *)
Record ToolExecutionOptions := {
  toolCallId : string;
  exec_messages : list CoreMessage;
}.

(** A tool definition; [execute] is [None] when the property is missing
    or is not a function. *)
Record Tool := {
  execute : option (Input → ToolExecutionOptions → Completion Output);
}.

(** The argument of [streamText]; [st_toolChoice] is the tool name of
    [{ type: 'tool', toolName }]. *)
Record StreamTextArgs := {
  st_model : Model;
  st_tools : gmap string Tool;
  st_toolChoice : string;
  st_messages : list CoreMessage;
}.

(** The calls that leave the helper, in the order in which they happen. *)
Inductive ExternalCall :=
| ExecuteCall (name : string) (input : Input) (options : ToolExecutionOptions)
| StreamTextCall (args : StreamTextArgs).

(** A computation that performs external calls and then returns or throws. *)
Record Traced (A : Type) := { calls : list ExternalCall; outcome : Completion A }.
Arguments calls {A} _.
Arguments outcome {A} _.

#[local] Instance Traced_ret : MRet Traced := λ A a,
  {| calls := []; outcome := Return a |}.

#[local] Instance Traced_bind : MBind Traced := λ A B k c,
  match outcome c with
  | Return a => {| calls := calls c ++ calls (k a); outcome := outcome (k a) |}
  | Throw e => {| calls := calls c; outcome := Throw e |}
  end.

(** Perform one external call whose completion is [result]. *)
Definition external {A} (call : ExternalCall) (result : Completion A) : Traced A :=
  {| calls := [call]; outcome := result |}.

Definition throw {A} (e : JsError) : Traced A :=
  {| calls := []; outcome := Throw e |}.

Record ForceCustomToolsArgs := {
  model : Model;
  tools : gmap string Tool;
  toolName : string;
  toolInput : Input;
  messages : list CoreMessage;
  acknowledgement : option string;
  fc_systemPrompt : option string;
}.

Definition DEFAULT_ACKNOWLEDGEMENT : string :=
  "Tool call completed. Use the result above verbatim and do not attempt to call CLI tools.".

Definition toolNotFoundMessage (name : string) : string :=
  "Tool " +:+ dquote +:+ name +:+ dquote
  +:+ " is not defined or missing an execute handler.".

(** The blocks of the synthetic assistant turn. *)
Definition manualBlocks (name : string) (input : Input) (manualResult : Output)
    (acknowledgement : string) : list ContentBlock :=
  let manualBlocks := [ToolCallBlock name input; ToolResultBlock name manualResult] in
  if truthy acknowledgement
  then manualBlocks ++ [TextBlock acknowledgement]
  else manualBlocks.

(** [streamText] of the AI SDK *)
Variable streamText : StreamTextArgs → Completion Stream.

Definition forceCustomTools (a : ForceCustomToolsArgs) : Traced Stream :=
  let acknowledgement := nullish (acknowledgement a) DEFAULT_ACKNOWLEDGEMENT in
  match tools a !! toolName a with
  | Some {| execute := Some execute |} =>
      let options :=
        {| toolCallId := "forced:" +:+ toolName a; exec_messages := messages a |} in
      manualResult ←
        external (ExecuteCall (toolName a) (toolInput a) options)
                 (execute (toolInput a) options);
      let augmentedMessages :=
        {| role := "system";
           content := TextContent (nullish (fc_systemPrompt a)
                                     DEFAULT_CUSTOM_TOOLS_SYSTEM_PROMPT) |}
        :: messages a
        ++ [{| role := "assistant";
               content := BlockContent (manualBlocks (toolName a) (toolInput a)
                                          manualResult acknowledgement) |}] in
      let args :=
        {| st_model := model a; st_tools := tools a; st_toolChoice := toolName a;
           st_messages := augmentedMessages |} in
      external (StreamTextCall args) (streamText args)
  | _ => throw (Err (toolNotFoundMessage (toolName a)))
  end.
Definition is_execute_call (c : ExternalCall) : bool :=
  match c with
  | ExecuteCall _ _ _ => true
  | StreamTextCall _ => false
  end.

(** The tool named by the arguments is absent from the tool map or has no
    [execute] function. *)
Definition tool_not_executable (a : ForceCustomToolsArgs) : Prop :=
  tools a !! toolName a = None
  ∨ ∃ tool, tools a !! toolName a = Some tool ∧ execute tool = None.

Definition not_found (a : ForceCustomToolsArgs) : Traced Stream :=
  {| calls := []; outcome := Throw (Err (toolNotFoundMessage (toolName a))) |}.

End ForceCustomTools.

Arguments ToolCallBlock {Input Output} _ _.
Arguments ToolResultBlock {Input Output} _ _.
Arguments TextBlock {Input Output} _.
Arguments TextContent {Input Output} _.
Arguments BlockContent {Input Output} _.
Arguments Build_CoreMessage {Input Output} _ _.
Arguments role {Input Output} _.
Arguments content {Input Output} _.
Arguments Build_ToolExecutionOptions {Input Output} _ _.
Arguments toolCallId {Input Output} _.
Arguments exec_messages {Input Output} _.
Arguments Build_Tool {Input Output} _.
Arguments execute {Input Output} _.
Arguments Build_StreamTextArgs {Input Output Model} _ _ _ _.
Arguments st_model {Input Output Model} _.
Arguments st_tools {Input Output Model} _.
Arguments st_toolChoice {Input Output Model} _.
Arguments st_messages {Input Output Model} _.
Arguments ExecuteCall {Input Output Model} _ _ _.
Arguments StreamTextCall {Input Output Model} _.
Arguments Build_Traced {Input Output Model A} _ _.
Arguments calls {Input Output Model A} _.
Arguments outcome {Input Output Model A} _.
Arguments Build_ForceCustomToolsArgs {Input Output Model} _ _ _ _ _ _ _.
Arguments model {Input Output Model} _.
Arguments tools {Input Output Model} _.
Arguments toolName {Input Output Model} _.
Arguments toolInput {Input Output Model} _.
Arguments messages {Input Output Model} _.
Arguments acknowledgement {Input Output Model} _.
Arguments fc_systemPrompt {Input Output Model} _.
Arguments manualBlocks {Input Output} _ _ _ _.
Arguments forceCustomTools {Input Output Model Stream} _ _.
Arguments is_execute_call {Input Output Model} _.
Arguments tool_not_executable {Input Output Model} _.
Arguments not_found {Input Output Model Stream} _.

(** ** Scenarios

    Option records and tool maps in the style of the test-suite, used as
    concrete inputs below. *)

Definition guardrailOptions : CreateZaiClaudeCodeOptions :=
  {| apiKey := Some "unit-key"; modelMappings := None;
     includeDefaultAllowedTools := None; enableWebSearchMcp := None;
     enableWebReaderMcp := None; enableVisionMcp := None; visionCommand := None;
     customToolsOnly :=
       Some (CtoOptions {| cto_systemPrompt := Some "Only call CustomTool.";
                           cto_appendSystemPrompt := Some "Do not call Bash.";
                           cto_allowedTools := Some ["CustomTool"];
                           cto_disallowedTools := Some ["Read"] |});
     defaultSettings :=
       Some {| permissionMode := None; allowedTools := Some ["AnotherTool"];
               disallowedTools := None; systemPrompt := None; mcpServers := None |} |}.

Definition blocklistOptions : CreateZaiClaudeCodeOptions :=
  {| apiKey := Some "unit-key"; modelMappings := None;
     includeDefaultAllowedTools := None; enableWebSearchMcp := None;
     enableWebReaderMcp := None; enableVisionMcp := None; visionCommand := None;
     customToolsOnly := None;
     defaultSettings :=
       Some {| permissionMode := None; allowedTools := None;
               disallowedTools := Some ["WebFetch"]; systemPrompt := None;
               mcpServers := None |} |}.

Definition extraBlockedOptions : CreateZaiClaudeCodeOptions :=
  {| apiKey := Some "unit-key"; modelMappings := None;
     includeDefaultAllowedTools := None; enableWebSearchMcp := None;
     enableWebReaderMcp := None; enableVisionMcp := None; visionCommand := None;
     customToolsOnly :=
       Some (CtoOptions {| cto_systemPrompt := None; cto_appendSystemPrompt := None;
                           cto_allowedTools := None;
                           cto_disallowedTools := Some ["Read"] |});
     defaultSettings := None |}.

Definition defaultsBlockedOptions : CreateZaiClaudeCodeOptions :=
  {| apiKey := Some "unit-key"; modelMappings := None;
     includeDefaultAllowedTools := None; enableWebSearchMcp := None;
     enableWebReaderMcp := None; enableVisionMcp := None; visionCommand := None;
     customToolsOnly := Some (CtoFlag true);
     defaultSettings :=
       Some {| permissionMode := None; allowedTools := None;
               disallowedTools := Some ["Read"]; systemPrompt := None;
               mcpServers := None |} |}.

(** One tool that echoes its text, and a [streamText] that returns the
    argument it was called with. *)
Definition echoTools : gmap string (Tool string string) :=
  {[ "echo_tool" := {| execute := Some (λ text _, Return text) |} ]}.

Definition echoArgs (ack : option string) : ForceCustomToolsArgs string string unit :=
  {| model := (); tools := echoTools; toolName := "echo_tool";
     toolInput := "custom_check";
     messages := [{| role := "system"; content := TextContent "be concise" |};
                  {| role := "user"; content := TextContent "run tool" |}];
     acknowledgement := ack; fc_systemPrompt := None |}.

Definition echoStream (args : StreamTextArgs string string unit)
  : Completion (StreamTextArgs string string unit) :=
  Return args.

(** ** The Anthropic-compatible HTTP provider *)

Definition DEFAULT_ANTHROPIC_BASE_URL : string := "https://api.z.ai/api/anthropic".
Definition DEFAULT_HTTP_COMPAT_MODEL : string := "claude-4.5-sonnet-20241022".

(** A character of a pattern with the [i] flag matches a character of the
    input when both have the same upper-case form; for the letters of
    [GLM_HTTP_PATTERN] these are the letter itself in either case. *)
Definition matches_letter (lower upper c : ascii) : bool :=
  Ascii.eqb c lower || Ascii.eqb c upper.

(** [GLM_HTTP_PATTERN.test(s)] for [GLM_HTTP_PATTERN = /^glm-/i] *)
Definition GLM_HTTP_PATTERN_test (s : string) : bool :=
  match s with
  | String c1 (String c2 (String c3 (String c4 _))) =>
      matches_letter "g" "G" c1 && matches_letter "l" "L" c2
      && matches_letter "m" "M" c3 && Ascii.eqb c4 "-"
  | _ => false
  end.

(** [fallbackModel: string | false] *)
Inductive GlmFallback :=
| FallbackDisabled
| FallbackTo (model : string).

Definition cliOnlyModelMessage (requestedId : string) : string :=
  "Model " +:+ dquote +:+ requestedId +:+ dquote
  +:+ " is only supported via the Claude Code CLI today. Pass a Claude-compatible HTTP model (e.g., "
  +:+ DEFAULT_HTTP_COMPAT_MODEL
  +:+ ") or enable customToolsOnly with CLI workflows.".

Definition unresolvedHttpModelMessage (requestedId : string) : string :=
  "Unable to resolve an Anthropic-compatible HTTP model for " +:+ dquote +:+ requestedId
  +:+ dquote +:+ ". Set options.glmFallbackModel or ZAI_HTTP_MODEL.".

Definition resolveAnthropicHttpModelId (requestedId : string) (fallbackModel : GlmFallback)
  : Completion string :=
  if negb (GLM_HTTP_PATTERN_test requestedId) then Return requestedId
  else
    match fallbackModel with
    | FallbackDisabled => Throw (Err (cliOnlyModelMessage requestedId))
    | FallbackTo fallbackModel =>
        let resolved :=
          if truthy fallbackModel then fallbackModel else DEFAULT_HTTP_COMPAT_MODEL in
        if negb (truthy resolved)
        then Throw (Err (unresolvedHttpModelMessage requestedId))
        else Return resolved
    end.

Record CreateZaiAnthropicOptions := {
  http_apiKey : option string;
  http_baseURL : option string;
  glmFallbackModel : option GlmFallback;
}.

(** The environment variables the two factories read. *)
Record ProcessEnv := {
  env_ZAI_API_KEY : option string;
  env_ZAI_HTTP_FALLBACK_MODEL : option string;
  env_ZAI_HTTP_MODEL : option string;
}.

(** The argument of [createAnthropic] *)
Record AnthropicProviderSettings := {
  anthropic_apiKey : string;
  anthropic_baseURL : string;
  anthropic_headers : gmap string string;
}.

(** [options.glmFallbackModel ?? process.env.ZAI_HTTP_FALLBACK_MODEL ??
     process.env.ZAI_HTTP_MODEL ?? DEFAULT_HTTP_COMPAT_MODEL] *)
Definition createZaiAnthropic_glmFallbackModel (env : ProcessEnv)
    (options : CreateZaiAnthropicOptions) : GlmFallback :=
  nullish (glmFallbackModel options)
    (FallbackTo
       (nullish (env_ZAI_HTTP_FALLBACK_MODEL env)
          (nullish (env_ZAI_HTTP_MODEL env) DEFAULT_HTTP_COMPAT_MODEL))).

Section CreateZaiAnthropic.
Context {Model : Type}.
(** [createAnthropic(settings)] of the Anthropic SDK provider: the function
    from model identifiers to model handles it returns. *)
Variable createAnthropic : AnthropicProviderSettings → string → Completion Model.

(** The API key is resolved by the same two statements as in
    [createZaiClaudeCode]. *)
Definition createZaiAnthropic (env : ProcessEnv) (options : CreateZaiAnthropicOptions)
  : Completion (string → Completion Model) :=
  apiKey ← createZaiClaudeCode_apiKey (http_apiKey options) (env_ZAI_API_KEY env);
  let anthropic :=
    createAnthropic
      {| anthropic_apiKey := apiKey;
         anthropic_baseURL :=
           nullish (http_baseURL options) (DEFAULT_ANTHROPIC_BASE_URL +:+ "/v1");
         anthropic_headers := {[ "anthropic-version" := "2023-06-01" ]} |} in
  let glmFallbackModel := createZaiAnthropic_glmFallbackModel env options in
  Return (λ modelId,
            resolved ← resolveAnthropicHttpModelId modelId glmFallbackModel;
            anthropic resolved).
End CreateZaiAnthropic.

(** ** The appended system prompt *)

(** The line feed of the separator of [mergeSystemPromptAppend]. *)
Definition newline : string := String (ascii_of_nat 10) EmptyString.

(** [parts.join(separator)]: an [undefined] element is joined as the empty
    string. *)
Definition join (separator : string) (parts : list (option string)) : string :=
  String.concat separator (default EmptyString <$> parts).

(** Strings stand for their UTF-8 encoding.  [String.prototype.trim]
    strips the white space and line terminator code points of ECMAScript;
    encoded, they take one byte (U+0009 to U+000D, U+0020), two bytes
    (U+00A0) or three bytes (U+1680, U+2000 to U+200A, U+2028, U+2029,
    U+202F, U+205F, U+3000, U+FEFF). *)
Definition isWhiteSpace1 (b1 : ascii) : bool :=
  let n1 := N_of_ascii b1 in
  ((9 <=? n1) && (n1 <=? 13) || (n1 =? 32))%N.

Definition isWhiteSpace2 (b1 b2 : ascii) : bool :=
  ((N_of_ascii b1 =? 194) && (N_of_ascii b2 =? 160))%N.

Definition isWhiteSpace3 (b1 b2 b3 : ascii) : bool :=
  let n1 := N_of_ascii b1 in
  let n2 := N_of_ascii b2 in
  let n3 := N_of_ascii b3 in
  ((n1 =? 225) && (n2 =? 154) && (n3 =? 128)
   || (n1 =? 226) && (n2 =? 128)
      && ((128 <=? n3) && (n3 <=? 138) || (n3 =? 168) || (n3 =? 169) || (n3 =? 175))
   || (n1 =? 226) && (n2 =? 129) && (n3 =? 159)
   || (n1 =? 227) && (n2 =? 128) && (n3 =? 128)
   || (n1 =? 239) && (n2 =? 187) && (n3 =? 191))%N.

(** The bytes that remain when the white space at the start is stripped. *)
Fixpoint dropWhiteSpace (bytes : list ascii) : list ascii :=
  match bytes with
  | [] => []
  | b1 :: rest1 =>
      if isWhiteSpace1 b1 then dropWhiteSpace rest1
      else
        match rest1 with
        | [] => bytes
        | b2 :: rest2 =>
            if isWhiteSpace2 b1 b2 then dropWhiteSpace rest2
            else
              match rest2 with
              | [] => bytes
              | b3 :: rest3 =>
                  if isWhiteSpace3 b1 b2 b3 then dropWhiteSpace rest3 else bytes
              end
        end
  end.

(** The same on the reversed bytes of a string (last byte first): what
    remains when the white space at the end is stripped. *)
Fixpoint dropWhiteSpace_reversed (bytes : list ascii) : list ascii :=
  match bytes with
  | [] => []
  | b3 :: rest1 =>
      if isWhiteSpace1 b3 then dropWhiteSpace_reversed rest1
      else
        match rest1 with
        | [] => bytes
        | b2 :: rest2 =>
            if isWhiteSpace2 b2 b3 then dropWhiteSpace_reversed rest2
            else
              match rest2 with
              | [] => bytes
              | b1 :: rest3 =>
                  if isWhiteSpace3 b1 b2 b3 then dropWhiteSpace_reversed rest3
                  else bytes
              end
        end
  end.

Definition trimStart (s : string) : string :=
  string_of_list_ascii (dropWhiteSpace (list_ascii_of_string s)).

Definition trimEnd (s : string) : string :=
  string_of_list_ascii
    (reverse (dropWhiteSpace_reversed (reverse (list_ascii_of_string s)))).

(** [s.trim()] *)
Definition trim (s : string) : string := trimEnd (trimStart s).

(** [Boolean(part?.trim())] *)
Definition hasContent (part : option string) : bool :=
  match part with
  | Some s => truthy (trim s)
  | None => false
  end.

Definition mergeSystemPromptAppend (customAppend userAppend : option string)
  : option string :=
  let parts := List.filter hasContent [customAppend; userAppend] in
  match parts with
  | [] => None
  | _ :: _ => Some (join (newline +:+ newline) parts)
  end.

(** The field [appendSystemPrompt] of [resolvedSettings];
    [userAppend] is [userDefaults.appendSystemPrompt]. *)
Definition createZaiClaudeCode_appendSystemPrompt (options : CreateZaiClaudeCodeOptions)
    (userAppend : option string) : option string :=
  let customToolsOnly := normalizeCustomToolsOnlyOptions (customToolsOnly options) in
  if enabled customToolsOnly
  then mergeSystemPromptAppend (n_appendSystemPrompt customToolsOnly) userAppend
  else userAppend.

(** A sequence of bytes that encodes white space code points only. *)
Inductive WhiteSpaceOnly : list ascii → Prop :=
| WhiteSpaceOnly_nil : WhiteSpaceOnly []
| WhiteSpaceOnly_1 b1 rest :
    isWhiteSpace1 b1 = true → WhiteSpaceOnly rest → WhiteSpaceOnly (b1 :: rest)
| WhiteSpaceOnly_2 b1 b2 rest :
    isWhiteSpace2 b1 b2 = true → WhiteSpaceOnly rest → WhiteSpaceOnly (b1 :: b2 :: rest)
| WhiteSpaceOnly_3 b1 b2 b3 rest :
    isWhiteSpace3 b1 b2 b3 = true → WhiteSpaceOnly rest →
    WhiteSpaceOnly (b1 :: b2 :: b3 :: rest).

(** A string that is empty or consists of white space only. *)
Definition blank (s : string) : Prop := WhiteSpaceOnly (list_ascii_of_string s).

(** [blank], decided by stripping from the start. *)
Definition is_blank (s : string) : bool :=
  match dropWhiteSpace (list_ascii_of_string s) with
  | [] => true
  | _ :: _ => false
  end.

(** The encodings of U+3000 (ideographic space) and of U+00A0 (no-break
    space). *)
Definition ideographicSpace : string :=
  String (ascii_of_nat 227) (String (ascii_of_nat 128) (String (ascii_of_nat 128) EmptyString)).

Definition noBreakSpace : string :=
  String (ascii_of_nat 194) (String (ascii_of_nat 160) EmptyString).

(** ** The environment of the CLI *)

Section Environment.
(** JavaScript numbers and [String(n)] are not interpreted; the default
    timeout is the number [300_000]. *)
Context {Number : Type}.
Variable String_of_number : Number → string.
Variable DEFAULT_TIMEOUT_MS : Number.

(** An environment object: a key is mapped to [None] when the property is
    present with the value [undefined]. *)
Definition buildZaiEnv (anthropicBaseUrl apiKey : string) (timeoutMs : Number)
    (modelMappings : list (string * string)) : gmap string (option string) :=
  {[ "ANTHROPIC_BASE_URL" := Some anthropicBaseUrl;
     "ANTHROPIC_AUTH_TOKEN" := Some apiKey;
     "API_TIMEOUT_MS" := Some (String_of_number timeoutMs);
     "ANTHROPIC_DEFAULT_SONNET_MODEL" := obj_get "sonnet" modelMappings;
     "ANTHROPIC_DEFAULT_OPUS_MODEL" := obj_get "opus" modelMappings;
     "ANTHROPIC_DEFAULT_HAIKU_MODEL" := obj_get "haiku" modelMappings ]}.

(** The field [env] of [resolvedSettings]; [anthropicBaseUrl] and
    [timeoutMs] are the options of these names and [userEnv] is
    [userDefaults.env]. *)
Definition createZaiClaudeCode_env (apiKey : string) (options : CreateZaiClaudeCodeOptions)
    (anthropicBaseUrl : option string) (timeoutMs : option Number)
    (userEnv : option (gmap string (option string))) : gmap string (option string) :=
  let anthropicBaseUrl := nullish anthropicBaseUrl DEFAULT_ANTHROPIC_BASE_URL in
  let timeoutMs := nullish timeoutMs DEFAULT_TIMEOUT_MS in
  let modelMappings := effectiveMappings (modelMappings options) in
  nullish userEnv ∅ ∪ buildZaiEnv anthropicBaseUrl apiKey timeoutMs modelMappings.
End Environment.

(** The environment variable that carries the mapping of an alias. *)
Definition alias_variable (a : ClaudeModelAlias) : string :=
  match a with
  | sonnet => "ANTHROPIC_DEFAULT_SONNET_MODEL"
  | opus => "ANTHROPIC_DEFAULT_OPUS_MODEL"
  | haiku => "ANTHROPIC_DEFAULT_HAIKU_MODEL"
  end.

(** The keys [buildZaiEnv] generates. *)
Definition generatedVariables : list string :=
  ["ANTHROPIC_BASE_URL"; "ANTHROPIC_AUTH_TOKEN"; "API_TIMEOUT_MS";
   "ANTHROPIC_DEFAULT_SONNET_MODEL"; "ANTHROPIC_DEFAULT_OPUS_MODEL";
   "ANTHROPIC_DEFAULT_HAIKU_MODEL"].

(** ** The lazily created default provider *)

Inductive ProviderRequest :=
| RequestCall (modelId : string) (settings : option ClaudeCodeSettings)
| RequestLanguageModel (modelId : string) (settings : option ClaudeCodeSettings)
| RequestChat (modelId : string) (settings : option ClaudeCodeSettings)
| RequestImageModel (modelId : string)
| RequestTextEmbeddingModel (modelId : string).

Section CreateLazyDefaultProvider.
Context {Model : Type}.
Variable createClaudeCode : ClaudeCodeSettings → ClaudeCodeProvider Model.

(** [inner ??= createZaiClaudeCode(); return inner;] on the captured
    variable [inner], with the value of the environment variable at the time
    of the call. *)
Definition ensure (ZAI_API_KEY : option string) (inner : option (ClaudeCodeProvider Model))
  : option (ClaudeCodeProvider Model) * Completion (ClaudeCodeProvider Model) :=
  match inner with
  | Some provider => (inner, Return provider)
  | None =>
      match createZaiClaudeCode createClaudeCode ZAI_API_KEY noOptions with
      | Return provider => (Some provider, Return provider)
      | Throw e => (None, Throw e)
      end
  end.

(** The entry point of a provider a request addresses. *)
Definition dispatch (provider : ClaudeCodeProvider Model) (request : ProviderRequest)
  : Completion Model :=
  match request with
  | RequestCall modelId settings => provider_call provider modelId settings
  | RequestLanguageModel modelId settings => languageModel provider modelId settings
  | RequestChat modelId settings => chat provider modelId settings
  | RequestImageModel modelId => imageModel provider modelId
  | RequestTextEmbeddingModel modelId => textEmbeddingModel provider modelId
  end.

(** An entry point of the lazy provider: [ensure().entry(...)]. *)
Definition lazy_request (ZAI_API_KEY : option string) (request : ProviderRequest)
    (inner : option (ClaudeCodeProvider Model))
  : option (ClaudeCodeProvider Model) * Completion Model :=
  let '(inner, provider) := ensure ZAI_API_KEY inner in
  (inner, provider ← provider; dispatch provider request).

(** A sequence of requests, each with the value of the environment variable
    at the time it is made. *)
Fixpoint lazy_run (requests : list (option string * ProviderRequest))
    (inner : option (ClaudeCodeProvider Model))
  : option (ClaudeCodeProvider Model) * list (Completion Model) :=
  match requests with
  | [] => (inner, [])
  | (ZAI_API_KEY, request) :: rest =>
      let '(inner, result) := lazy_request ZAI_API_KEY request inner in
      let '(inner, results) := lazy_run rest inner in
      (inner, result :: results)
  end.
End CreateLazyDefaultProvider.

(** A [createAnthropic] that only records the settings and the identifier
    it is called with. *)
Definition recordingAnthropic (settings : AnthropicProviderSettings) (modelId : string)
  : Completion (AnthropicProviderSettings * string) :=
  Return (settings, modelId).

(** An environment in which the fallback variable is set but empty. *)
Definition emptyFallbackEnv : ProcessEnv :=
  {| env_ZAI_API_KEY := Some "env-key";
     env_ZAI_HTTP_FALLBACK_MODEL := Some EmptyString;
     env_ZAI_HTTP_MODEL := Some "claude-3-5-sonnet-20241022" |}.

Definition noHttpOptions : CreateZaiAnthropicOptions :=
  {| http_apiKey := None; http_baseURL := None; glmFallbackModel := None |}.

(** The built-in part of the allowlist when the custom-tools-only policy
    is inactive: the tool groups whose option is not [false]. *)
Definition enabledToolGroups (options : CreateZaiClaudeCodeOptions) : list string :=
  (if nullish (includeDefaultAllowedTools options) true then CORE_ALLOWED_TOOLS else [])
  ++ (if nullish (enableWebSearchMcp options) true then WEB_SEARCH_ALLOWED_TOOLS else [])
  ++ (if nullish (enableWebReaderMcp options) true then WEB_READER_ALLOWED_TOOLS else [])
  ++ (if nullish (enableVisionMcp options) true then VISION_ALLOWED_TOOLS else []).

(** Custom-tools-only options with every built-in capability switched on
    explicitly. *)
Definition guardrailFlagsOptions : CreateZaiClaudeCodeOptions :=
  {| apiKey := Some "other-key"; modelMappings := None;
     includeDefaultAllowedTools := Some true; enableWebSearchMcp := Some true;
     enableWebReaderMcp := Some true; enableVisionMcp := Some true;
     visionCommand := None;
     customToolsOnly := customToolsOnly guardrailOptions;
     defaultSettings := defaultSettings guardrailOptions |}.

(** A tool whose [execute] throws. *)
Definition failingTools : gmap string (Tool string string) :=
  {[ "broken_tool" := {| execute := Some (λ _ _, Throw (Err "tool failed")) |} ]}.

Definition failingArgs : ForceCustomToolsArgs string string unit :=
  {| model := (); tools := failingTools; toolName := "broken_tool";
     toolInput := "input"; messages := []; acknowledgement := None;
     fc_systemPrompt := None |}.

(** ** Overrides that hold [undefined] *)

(** The type [Partial<Record<ClaudeModelAlias, string>>] of
    [options.modelMappings] admits a property whose value is [undefined],
    and the spread writes it over the built-in mapping.  The definitions
    below are those of the alias table with such values: the value of a
    property is [Some v] for a string and [None] for [undefined].  On
    overrides that hold strings only they agree with the definitions
    above. *)
Fixpoint obj_set_partial (k : string) (v : option string)
    (o : list (string * option string)) : list (string * option string) :=
  match o with
  | [] => [(k, v)]
  | (k', v') :: rest =>
      if decide (k' = k) then (k', v) :: rest else (k', v') :: obj_set_partial k v rest
  end.

(** [o[k]]: [undefined] for a missing property as for a property that
    holds [undefined]. *)
Fixpoint obj_get_partial (k : string) (o : list (string * option string))
  : option string :=
  match o with
  | [] => None
  | (k', v) :: rest => if decide (k' = k) then v else obj_get_partial k rest
  end.

(** A table of strings, read as a table of optional values. *)
Definition defined (table : list (string * string)) : list (string * option string) :=
  (λ kv, (kv.1, Some kv.2)) <$> table.

Definition mapping_entries_partial
    (modelMappings : option (list (ClaudeModelAlias * option string)))
  : list (string * option string) :=
  match modelMappings with
  | Some m => (λ kv, (alias_name kv.1, kv.2)) <$> m
  | None => []
  end.

(** [{ ...DEFAULT_MODEL_MAPPINGS, ...options.modelMappings }] *)
Definition effectiveMappings_partial
    (modelMappings : option (list (ClaudeModelAlias * option string)))
  : list (string * option string) :=
  foldl (λ o kv, obj_set_partial kv.1 kv.2 o)
    (foldl (λ o kv, obj_set_partial kv.1 kv.2 o) [] (defined DEFAULT_MODEL_MAPPINGS))
    (mapping_entries_partial modelMappings).

(** The loop of [resolveModelId]: [mappedId === requestedId] is false for
    a value that is [undefined]. *)
Fixpoint resolveModelId_scan_partial (requestedId : string)
    (entries : list (string * option string)) : option string :=
  match entries with
  | [] => None
  | (alias, mappedId) :: rest =>
      if decide (mappedId = Some requestedId) then Some alias
      else resolveModelId_scan_partial requestedId rest
  end.

Definition resolveModelId_partial (requestedId : string)
    (mappings : list (string * option string)) : Completion string :=
  if includes CLAUDE_ALIASES requestedId then Return requestedId
  else
    match resolveModelId_scan_partial requestedId mappings with
    | Some alias => Return alias
    | None => Throw (Err (unsupportedModelMessage requestedId))
    end.

Section EnvironmentPartial.
Context {Number : Type}.
Variable String_of_number : Number → string.
Variable DEFAULT_TIMEOUT_MS : Number.

Definition buildZaiEnv_partial (anthropicBaseUrl apiKey : string) (timeoutMs : Number)
    (modelMappings : list (string * option string)) : gmap string (option string) :=
  {[ "ANTHROPIC_BASE_URL" := Some anthropicBaseUrl;
     "ANTHROPIC_AUTH_TOKEN" := Some apiKey;
     "API_TIMEOUT_MS" := Some (String_of_number timeoutMs);
     "ANTHROPIC_DEFAULT_SONNET_MODEL" := obj_get_partial "sonnet" modelMappings;
     "ANTHROPIC_DEFAULT_OPUS_MODEL" := obj_get_partial "opus" modelMappings;
     "ANTHROPIC_DEFAULT_HAIKU_MODEL" := obj_get_partial "haiku" modelMappings ]}.

(** The field [env] of [resolvedSettings], from the overrides. *)
Definition createZaiClaudeCode_env_partial (apiKey : string)
    (modelMappings : option (list (ClaudeModelAlias * option string)))
    (anthropicBaseUrl : option string) (timeoutMs : option Number)
    (userEnv : option (gmap string (option string))) : gmap string (option string) :=
  let anthropicBaseUrl := nullish anthropicBaseUrl DEFAULT_ANTHROPIC_BASE_URL in
  let timeoutMs := nullish timeoutMs DEFAULT_TIMEOUT_MS in
  let modelMappings := effectiveMappings_partial modelMappings in
  nullish userEnv ∅ ∪ buildZaiEnv_partial anthropicBaseUrl apiKey timeoutMs modelMappings.
End EnvironmentPartial.

(** Overrides that hold strings only, at the type that admits [undefined]. *)
Definition defined_overrides (modelMappings : option (list (ClaudeModelAlias * string)))
  : option (list (ClaudeModelAlias * option string)) :=
  fmap (M := list) (λ kv, (kv.1, Some kv.2)) <$> modelMappings.

(** * Verification *)

(** ** Facts about the merge *)

(** Closed decidable goals are settled by evaluation. *)
Ltac by_compute := apply (bool_decide_unpack _); vm_compute; exact I.

Lemma truthy_spec s : truthy s = true ↔ s ≠ EmptyString.
Proof. destruct s; simpl; split; congruence. Qed.

Lemma first_occurrences_snoc l x :
  first_occurrences (l ++ [x]) =
  if decide (x ∈ l) then first_occurrences l else first_occurrences l ++ [x].
Proof.
  unfold first_occurrences. rewrite reverse_snoc. simpl.
  destruct (decide_rel elem_of x (reverse l)) as [Hin|Hin];
    rewrite elem_of_reverse in Hin; case_decide; try done.
  by rewrite reverse_cons.
Qed.

Lemma elem_of_first_occurrences l x : x ∈ first_occurrences l ↔ x ∈ l.
Proof.
  unfold first_occurrences.
  by rewrite elem_of_reverse, elem_of_remove_dups, elem_of_reverse.
Qed.

Lemma NoDup_first_occurrences l : NoDup (first_occurrences l).
Proof.
  unfold first_occurrences. rewrite reverse_Permutation.
  apply NoDup_remove_dups.
Qed.

Lemma mergeAllowedTools_loop defaults user :
  foldl mergeAllowedTools_step defaults user =
  defaults ++ first_occurrences (filter (appendable defaults) user).
Proof.
  induction user as [|t user IH] using rev_ind.
  - simpl. unfold first_occurrences. simpl. by rewrite app_nil_r.
  - rewrite foldl_app. simpl. rewrite IH. clear IH.
    rewrite filter_app. unfold mergeAllowedTools_step, includes.
    destruct (decide (appendable defaults t)) as [[Hne Hnd]|Hna].
    + rewrite (filter_cons_True _ t) by (split; done).
      rewrite filter_nil, first_occurrences_snoc.
      apply truthy_spec in Hne. rewrite Hne. simpl.
      case_bool_decide as Hin; case_decide as Hin'.
      * done.
      * exfalso. apply elem_of_app in Hin as [Hin|Hin]; [done|].
        apply Hin'. by apply elem_of_first_occurrences.
      * exfalso. apply Hin, elem_of_app. right.
        by apply elem_of_first_occurrences.
      * by rewrite app_assoc.
    + rewrite (filter_cons_False _ t) by done.
      rewrite filter_nil, app_nil_r.
      destruct (truthy t) eqn:Ht; simpl; [|done].
      case_bool_decide as Hin; [done|].
      exfalso. apply Hna. split; [by apply truthy_spec|].
      intros Hd. apply Hin, elem_of_app. by left.
Qed.

Lemma first_occurrences_nil : first_occurrences [] = [].
Proof. reflexivity. Qed.

Lemma mergeAllowedTools_merged defaults user :
  mergeAllowedTools defaults user = lengthOrUndefined (spec_merged defaults user).
Proof.
  unfold mergeAllowedTools, spec_merged.
  destruct user as [[|t user]|]; simpl default.
  - by rewrite filter_nil, first_occurrences_nil, app_nil_r.
  - by rewrite mergeAllowedTools_loop.
  - by rewrite filter_nil, first_occurrences_nil, app_nil_r.
Qed.

Example mergeAllowedTools_ex1 :
  mergeAllowedTools ["Bash"; "Read"] (Some ["Read"; EmptyString; "X"; "Y"; "X"])
  = Some ["Bash"; "Read"; "X"; "Y"].
Proof. reflexivity. Qed.

Example mergeAllowedTools_ex2 : mergeAllowedTools [] (Some [EmptyString]) = None.
Proof. reflexivity. Qed.

Example resolveModelId_ex1 :
  resolveModelId "glm-4.6" (effectiveMappings None) = Return "sonnet".
Proof. reflexivity. Qed.

Example resolveModelId_ex2 :
  resolveModelId "glm-custom" (effectiveMappings (Some [(opus, "glm-custom")])) = Return "opus".
Proof. reflexivity. Qed.

Example effectiveMappings_ex :
  effectiveMappings (Some [(haiku, "h"); (opus, "o")])
  = [("sonnet", "glm-4.6"); ("opus", "o"); ("haiku", "h")].
Proof. reflexivity. Qed.

Example unsupportedModelMessage_ex :
  unsupportedModelMessage "glm-unknown"
  = "Unsupported model " +:+ dquote +:+ "glm-unknown" +:+ dquote
    +:+ ". Use one of sonnet, opus, haiku or provide a matching entry via modelMappings.".
Proof. reflexivity. Qed.

Lemma NoDup_spec_merged defaults user :
  NoDup defaults → NoDup (spec_merged defaults user).
Proof.
  intros Hd. unfold spec_merged. apply NoDup_app. split; [done|]. split.
  - intros t Ht Hin. rewrite elem_of_first_occurrences in Hin.
    apply list_elem_of_filter in Hin as [[_ Hnd] _]. done.
  - apply NoDup_first_occurrences.
Qed.

Lemma elem_of_spec_merged defaults user t :
  t ∈ spec_merged defaults user ↔
  t ∈ defaults ∨ (t ∈ default [] user ∧ t ≠ EmptyString ∧ t ∉ defaults).
Proof.
  unfold spec_merged.
  rewrite elem_of_app, elem_of_first_occurrences, list_elem_of_filter.
  unfold appendable. tauto.
Qed.

Lemma mergeStringLists_merged defaults user :
  mergeStringLists defaults user = lengthOrUndefined (spec_merged defaults user).
Proof. exact (mergeAllowedTools_merged defaults user). Qed.

Lemma lengthOrUndefined_Some (l merged : list string) :
  lengthOrUndefined l = Some merged ↔ l = merged ∧ merged ≠ [].
Proof.
  destruct l; simpl; split.
  - done.
  - by intros [<- ?].
  - by intros [= <-].
  - by intros [<- _].
Qed.

Lemma lengthOrUndefined_None (l : list string) :
  lengthOrUndefined l = None ↔ l = [].
Proof. by destruct l. Qed.

(** C3 (amended).  For every [defaults] and every optional [user] list,
    [mergeAllowedTools] yields [defaults] in its order followed by the first
    occurrence of each [user] entry that is non-empty and not in
    [defaults], in the order of [user]; it yields [undefined] instead of an
    empty array; every entry of the result comes from [defaults] or [user];
    the appended entries are pairwise distinct and none of them is in
    [defaults], so that no entry occurs twice whenever [defaults] has no
    repeated entry. *)
Theorem mergeAllowedTools_spec (defaults : list string) (user : option (list string)) :
  let appended :=
    first_occurrences (filter (appendable defaults) (default [] user)) in
  mergeAllowedTools defaults user = lengthOrUndefined (defaults ++ appended)
  ∧ mergeAllowedTools defaults user ≠ Some []
  ∧ NoDup appended
  ∧ (∀ t, t ∈ appended → t ∉ defaults)
  ∧ ∀ merged, mergeAllowedTools defaults user = Some merged →
      defaults `prefix_of` merged
      ∧ (∀ t, t ∈ merged → t ∈ defaults ∨ t ∈ default [] user)
      ∧ (NoDup defaults → NoDup merged).
Proof.
  intros appended. split; [apply mergeAllowedTools_merged|].
  rewrite mergeAllowedTools_merged. split; [|split; [|split]].
  - intros H. apply lengthOrUndefined_Some in H as [_ H]. done.
  - apply NoDup_first_occurrences.
  - intros t Ht. unfold appended in Ht. rewrite elem_of_first_occurrences in Ht.
    by apply list_elem_of_filter in Ht as [[_ Hnd] _].
  - intros merged H. apply lengthOrUndefined_Some in H as [<- _].
    split; [by apply prefix_app_r|]. split.
    + intros t Ht. apply elem_of_spec_merged in Ht. tauto.
    + apply NoDup_spec_merged.
Qed.

Lemma mergeAllowedTools_spec_witness :
  NoDup ["Bash"; "Read"]
  ∧ mergeAllowedTools ["Bash"; "Read"] (Some ["Read"; EmptyString; "X"; "Y"; "X"])
    = Some ["Bash"; "Read"; "X"; "Y"]
  ∧ NoDup ["Bash"; "Read"; "X"; "Y"].
Proof.
  assert (Hd : NoDup ["Bash"; "Read"]) by by_compute.
  split; [exact Hd|].
  assert (Hm : mergeAllowedTools ["Bash"; "Read"]
                 (Some ["Read"; EmptyString; "X"; "Y"; "X"])
               = Some ["Bash"; "Read"; "X"; "Y"]) by reflexivity.
  split; [exact Hm|].
  exact (proj2 (proj2 (proj2 (proj2 (proj2 (proj2
           (mergeAllowedTools_spec ["Bash"; "Read"]
              (Some ["Read"; EmptyString; "X"; "Y"; "X"]))))) _ Hm)) Hd).
Defined.

(** C3, as stated, fails: entries repeated in [defaults] are repeated in
    the result. *)
Lemma mergeAllowedTools_repeated_defaults :
  mergeAllowedTools ["Read"; "Read"] None = Some ["Read"; "Read"]
  ∧ ¬ NoDup ["Read"; "Read"].
Proof.
  split; [reflexivity|].
  intros H. apply NoDup_cons in H as [H _]. apply H. by left.
Qed.

(** C8.  [mergeAllowedTools] and [mergeStringLists] are the same function:
    they return equal results on every defaults list and every optional
    user list. *)
Theorem mergeAllowedTools_mergeStringLists (defaults : list string)
    (user : option (list string)) :
  mergeAllowedTools defaults user = mergeStringLists defaults user.
Proof.
  unfold mergeAllowedTools, mergeStringLists.
  assert (Hstep : ∀ l acc,
    foldl mergeAllowedTools_step acc l = foldl mergeStringLists_step acc l).
  { induction l as [|t l IH]; intros acc; [done|]. simpl. by rewrite IH. }
  destruct user as [[|t user]|]; [done| |done].
  by rewrite Hstep.
Qed.

(** ** Facts about the alias table *)

Lemma resolveModelId_scan_first_alias requestedId entries :
  resolveModelId_scan requestedId entries = first_alias_for requestedId entries.
Proof.
  unfold first_alias_for.
  induction entries as [|[alias mappedId] rest IH]; [done|]. simpl.
  destruct (decide (mappedId = requestedId)) as [Heq|Hne].
  - by rewrite filter_cons_True.
  - by rewrite filter_cons_False.
Qed.

Lemma resolveModelId_scan_None requestedId entries :
  resolveModelId_scan requestedId entries = None ↔
  ∀ alias mappedId, (alias, mappedId) ∈ entries → mappedId ≠ requestedId.
Proof.
  induction entries as [|[alias mappedId] rest IH]; simpl.
  - split; [|done]. intros _ ? ? H. by apply elem_of_nil in H.
  - destruct (decide (mappedId = requestedId)) as [Heq|Hne].
    + split; [done|]. intros H. exfalso. apply (H alias mappedId); [left|done].
    + rewrite IH. split.
      * intros H a m Hin. apply elem_of_cons in Hin as [[= -> ->]|Hin]; [done|].
        by apply (H a m).
      * intros H a m Hin. apply (H a m). by right.
Qed.

Lemma includes_true arr x : includes arr x = true ↔ x ∈ arr.
Proof. unfold includes. apply bool_decide_eq_true. Qed.

Lemma includes_false arr x : includes arr x = false ↔ x ∉ arr.
Proof. unfold includes. apply bool_decide_eq_false. Qed.

Lemma alias_name_in_CLAUDE_ALIASES a : alias_name a ∈ CLAUDE_ALIASES.
Proof. destruct a; by_compute. Qed.

Lemma elem_of_CLAUDE_ALIASES x : x ∈ CLAUDE_ALIASES ↔ ∃ a, x = alias_name a.
Proof.
  split.
  - unfold CLAUDE_ALIASES. rewrite !elem_of_cons, elem_of_nil.
    intros [->|[->|[->|[]]]]; [by exists sonnet|by exists opus|by exists haiku].
  - intros [a ->]. apply alias_name_in_CLAUDE_ALIASES.
Qed.

(** Whatever the overrides, the effective table enumerates the three
    aliases in the order of the built-in table. *)
Lemma effectiveMappings_shape modelMappings :
  ∃ s o h, effectiveMappings modelMappings = [("sonnet", s); ("opus", o); ("haiku", h)].
Proof.
  unfold effectiveMappings, obj_spread.
  change (foldl _ [] DEFAULT_MODEL_MAPPINGS) with DEFAULT_MODEL_MAPPINGS.
  unfold DEFAULT_MODEL_MAPPINGS.
  generalize "glm-4.6" at 1 as s. generalize "glm-4.6" as o. generalize "glm-4.5-air" as h.
  induction (mapping_entries modelMappings) as [|kv l IH] eqn:E
    in modelMappings |- *.
  - intros; by eexists _, _, _.
  - intros h o s. destruct modelMappings as [[|[a v] m]|]; try done.
    simpl in E. injection E as <- <-.
    destruct a; simpl; by apply (IH (Some m)).
Qed.

Lemma first_alias_for_is_alias modelMappings m k :
  first_alias_for m (effectiveMappings modelMappings) = Some k →
  ∃ a, k = alias_name a ∧ obj_get (alias_name a) (effectiveMappings modelMappings) = Some m.
Proof.
  destruct (effectiveMappings_shape modelMappings) as (s & o & h & ->).
  unfold first_alias_for. simpl.
  destruct (decide (s = m)) as [->|?].
  { rewrite filter_cons_True by done. intros [= <-]. by exists sonnet. }
  rewrite filter_cons_False by done.
  destruct (decide (o = m)) as [->|?].
  { rewrite filter_cons_True by done. intros [= <-]. by exists opus. }
  rewrite filter_cons_False by done.
  destruct (decide (h = m)) as [->|?].
  { rewrite filter_cons_True by done. intros [= <-]. by exists haiku. }
  by rewrite filter_cons_False.
Qed.

Lemma obj_get_first_alias_for k m table :
  obj_get k table = Some m → is_Some (first_alias_for m table).
Proof.
  unfold first_alias_for.
  induction table as [|[k' v] rest IH]; simpl; [done|].
  destruct (decide (v = m)) as [->|Hne].
  - rewrite filter_cons_True by done. by eexists.
  - rewrite filter_cons_False by done.
    destruct (decide (k' = k)); [by intros [= ->]|]. apply IH.
Qed.

Lemma resolveModelId_alias a mappings :
  resolveModelId (alias_name a) mappings = Return (alias_name a).
Proof.
  unfold resolveModelId.
  by rewrite (proj2 (includes_true _ _) (alias_name_in_CLAUDE_ALIASES a)).
Qed.

(** C1 (amended).  In the effective table (built-in mappings overlaid with
    the user's), for every alias [a] mapped to identifier [m]:
    [resolveModelId a] is [a]; when [m] is not itself one of the three alias
    names, [resolveModelId m] is the first alias, in the iteration order
    sonnet, opus, haiku, that is mapped to [m] (so it is [a] when no other
    alias is mapped to [m]); and when [m] is itself an alias name,
    [resolveModelId m] is [m]. *)
Theorem resolveModelId_left_inverse
    (modelMappings : option (list (ClaudeModelAlias * string)))
    (a : ClaudeModelAlias) (m : string) :
  obj_get (alias_name a) (effectiveMappings modelMappings) = Some m →
  resolveModelId (alias_name a) (effectiveMappings modelMappings) = Return (alias_name a)
  ∧ (∃ s o h, effectiveMappings modelMappings = [("sonnet", s); ("opus", o); ("haiku", h)])
  ∧ (m ∈ CLAUDE_ALIASES → resolveModelId m (effectiveMappings modelMappings) = Return m)
  ∧ (m ∉ CLAUDE_ALIASES →
     ∃ a', first_alias_for m (effectiveMappings modelMappings) = Some (alias_name a')
           ∧ obj_get (alias_name a') (effectiveMappings modelMappings) = Some m
           ∧ resolveModelId m (effectiveMappings modelMappings) = Return (alias_name a'))
  ∧ (m ∉ CLAUDE_ALIASES →
     (∀ a', obj_get (alias_name a') (effectiveMappings modelMappings) = Some m → a' = a) →
     resolveModelId m (effectiveMappings modelMappings) = Return (alias_name a)).
Proof.
  intros Hget. split; [apply resolveModelId_alias|].
  split; [apply effectiveMappings_shape|].
  assert (Hres : m ∉ CLAUDE_ALIASES →
     ∃ a', first_alias_for m (effectiveMappings modelMappings) = Some (alias_name a')
           ∧ obj_get (alias_name a') (effectiveMappings modelMappings) = Some m
           ∧ resolveModelId m (effectiveMappings modelMappings) = Return (alias_name a')).
  { intros Hm. destruct (obj_get_first_alias_for _ _ _ Hget) as [k Hk].
    destruct (first_alias_for_is_alias _ _ _ Hk) as (a' & -> & Hget').
    exists a'. split; [done|]. split; [done|].
    unfold resolveModelId. rewrite (proj2 (includes_false _ _) Hm).
    by rewrite resolveModelId_scan_first_alias, Hk. }
  split; [|split; [done|]].
  - intros Hm. unfold resolveModelId. by rewrite (proj2 (includes_true _ _) Hm).
  - intros Hm Huniq. destruct (Hres Hm) as (a' & _ & Hget' & ->).
    by rewrite (Huniq a' Hget').
Qed.

Lemma resolveModelId_left_inverse_witness :
  obj_get (alias_name opus) (effectiveMappings (Some [(opus, "glm-custom")]))
    = Some "glm-custom"
  ∧ resolveModelId "glm-custom" (effectiveMappings (Some [(opus, "glm-custom")]))
    = Return "opus".
Proof.
  assert (Hget : obj_get (alias_name opus) (effectiveMappings (Some [(opus, "glm-custom")]))
                 = Some "glm-custom") by reflexivity.
  split; [exact Hget|].
  destruct (resolveModelId_left_inverse (Some [(opus, "glm-custom")]) opus "glm-custom" Hget)
    as (_ & _ & _ & _ & H).
  apply H; [by_compute|].
  intros [] Hother; [discriminate Hother|reflexivity|discriminate Hother].
Defined.

(** C1, as stated, fails when an alias is mapped to the name of another
    alias: [opus] is the first (and only) alias mapped to ["haiku"], yet
    [resolveModelId "haiku"] is ["haiku"]. *)
Lemma resolveModelId_alias_valued_mapping :
  obj_get "opus" (effectiveMappings (Some [(opus, "haiku")])) = Some "haiku"
  ∧ first_alias_for "haiku" (effectiveMappings (Some [(opus, "haiku")])) = Some "opus"
  ∧ resolveModelId "haiku" (effectiveMappings (Some [(opus, "haiku")])) = Return "haiku"
  ∧ resolveModelId "haiku" (effectiveMappings (Some [(opus, "haiku")])) ≠ Return "opus".
Proof. repeat split; try reflexivity. discriminate. Qed.

(** C2.  [resolveModelId] throws exactly when the requested identifier is
    none of the three alias names and is not the value of any entry of the
    table; the error it throws is the unsupported-model error, whose message
    quotes the requested identifier and lists the alias names. *)
Theorem resolveModelId_throws_iff (requestedId : string) (mappings : list (string * string)) :
  ((∃ e, resolveModelId requestedId mappings = Throw e) ↔
   ((requestedId ∉ CLAUDE_ALIASES)
    ∧ (∀ alias mappedId, (alias, mappedId) ∈ mappings → mappedId ≠ requestedId)))
  ∧ (∀ e, resolveModelId requestedId mappings = Throw e →
          e = Err (unsupportedModelMessage requestedId))
  ∧ unsupportedModelMessage requestedId =
      "Unsupported model " +:+ dquote +:+ requestedId +:+ dquote
      +:+ ". Use one of sonnet, opus, haiku or provide a matching entry via modelMappings.".
Proof.
  split; [|split; [|reflexivity]].
  - unfold resolveModelId. destruct (includes CLAUDE_ALIASES requestedId) eqn:Hinc.
    + apply includes_true in Hinc. split; [by intros [e ?]|]. by intros [? _].
    + apply includes_false in Hinc.
      destruct (resolveModelId_scan requestedId mappings) as [alias|] eqn:Hscan.
      * split; [by intros [e ?]|]. intros [_ H].
        apply resolveModelId_scan_None in H. congruence.
      * split; [|by eexists]. intros _. split; [done|].
        by apply resolveModelId_scan_None.
  - unfold resolveModelId. intros e.
    destruct (includes CLAUDE_ALIASES requestedId); [done|].
    destruct (resolveModelId_scan requestedId mappings); [done|]. by intros [= <-].
Qed.

(** ** Facts about the resolved settings *)

Lemma createZaiClaudeCode_Return {Model} (createClaudeCode : ClaudeCodeSettings → ClaudeCodeProvider Model)
    ZAI_API_KEY options provider :
  createZaiClaudeCode createClaudeCode ZAI_API_KEY options = Return provider ↔
  ∃ key, createZaiClaudeCode_apiKey (apiKey options) ZAI_API_KEY = Return key
         ∧ provider = wrapProviderWithModelResolution
                        (createClaudeCode (createZaiClaudeCode_resolvedSettings key options))
                        (effectiveMappings (modelMappings options)).
Proof.
  unfold createZaiClaudeCode.
  destruct (createZaiClaudeCode_apiKey (apiKey options) ZAI_API_KEY) as [key|e]; simpl.
  - split.
    + intros [= <-]. by exists key.
    + by intros (key' & [= <-] & ->).
  - split; [done|]. by intros (? & ? & _).
Qed.

(** C5 (amended).  The key used is the explicit key when one is given, and
    the ambient key when none is given.  A non-empty explicit key is always
    returned; without an explicit key a non-empty ambient key is returned;
    and the missing-credential error is thrown exactly when the explicit
    key is the empty string, or no explicit key is given and the ambient
    key is absent or empty. *)
Theorem createZaiClaudeCode_apiKey_spec (explicit ZAI_API_KEY : option string) :
  (∀ k, explicit = Some k → k ≠ EmptyString →
        createZaiClaudeCode_apiKey explicit ZAI_API_KEY = Return k)
  ∧ (∀ k, explicit = None → ZAI_API_KEY = Some k → k ≠ EmptyString →
          createZaiClaudeCode_apiKey explicit ZAI_API_KEY = Return k)
  ∧ ((∃ e, createZaiClaudeCode_apiKey explicit ZAI_API_KEY = Throw e) ↔
     (explicit = Some EmptyString
      ∨ (explicit = None ∧ (ZAI_API_KEY = None ∨ ZAI_API_KEY = Some EmptyString))))
  ∧ (∀ e, createZaiClaudeCode_apiKey explicit ZAI_API_KEY = Throw e →
          e = Err missingApiKeyMessage).
Proof.
  unfold createZaiClaudeCode_apiKey.
  destruct explicit as [[|c k]|]; [| |destruct ZAI_API_KEY as [[|c k]|]]; simpl.
  all: repeat split; try congruence; try (by eexists); try (intros [? ?]; congruence).
  all: try (intros; simplify_eq; done).
  all: try tauto.
  all: intros [?|[? [?|?]]]; congruence.
Qed.

(** C5, as stated, fails: an explicit key that is present but empty is not
    replaced by the ambient key; the call throws although an ambient key is
    present. *)
Lemma createZaiClaudeCode_apiKey_empty_explicit :
  createZaiClaudeCode_apiKey (Some EmptyString) (Some "env-key")
  = Throw (Err missingApiKeyMessage).
Proof. reflexivity. Qed.

Example createZaiClaudeCode_apiKey_ex :
  createZaiClaudeCode_apiKey (Some "override-key") (Some "env-key") = Return "override-key".
Proof. reflexivity. Qed.

Lemma normalize_enabled customToolsOnly :
  enabled (normalizeCustomToolsOnlyOptions customToolsOnly) = true ↔
  ∃ arg, customToolsOnly = Some arg ∧ arg ≠ CtoFlag false.
Proof.
  destruct customToolsOnly as [[[]|o]|]; simpl; split; try done.
  - intros _. by eexists.
  - intros (arg & [= <-] & H). done.
  - intros _. by eexists.
  - by intros (arg & ? & _).
Qed.

Lemma noLength_mergeAllowedTools defaults user :
  noLength (mergeAllowedTools defaults user) = true ↔
  mergeAllowedTools defaults user = None.
Proof.
  rewrite mergeAllowedTools_merged.
  by destruct (spec_merged defaults user).
Qed.

Lemma normalize_active arg :
  arg ≠ CtoFlag false → enabled (normalizeCustomToolsOnlyOptions (Some arg)) = true.
Proof. intros Harg. apply normalize_enabled. by exists arg. Qed.

Lemma normalize_inactive customToolsOnly :
  customToolsOnly = None ∨ customToolsOnly = Some (CtoFlag false) →
  normalizeCustomToolsOnlyOptions customToolsOnly
  = {| enabled := false; n_allowedTools := []; n_disallowedTools := [];
       n_systemPrompt := None; n_appendSystemPrompt := None |}.
Proof. by intros [->| ->]. Qed.

Lemma mergeStringLists_nil user :
  mergeStringLists [] user =
  lengthOrUndefined (first_occurrences (filter (λ t, t ≠ EmptyString) (default [] user))).
Proof.
  rewrite mergeStringLists_merged. unfold spec_merged. simpl. f_equal. f_equal.
  apply list_filter_iff. intros t. unfold appendable. split; [by intros [? _]|].
  intros Hne. split; [done|]. apply not_elem_of_nil.
Qed.

(** C4 (amended).  When the custom-tools-only policy is active
    ([customToolsOnly] is [true] or an options object), a resolved allowlist
    is never attached together with a disallowed list: whenever
    [allowedTools] is present (it is then non-empty), [disallowedTools] is
    absent.  When the policy is inactive ([customToolsOnly] is absent or
    [false]), the disallowed list does not depend on the allowlist: it holds
    the non-empty entries of the disallowed list of the default settings,
    each once, in the order of their first occurrence, and it is absent when
    there is none. *)
Theorem customToolsOnly_allowed_excludes_disallowed (key : string)
    (options : CreateZaiClaudeCodeOptions) :
  let resolved := createZaiClaudeCode_resolvedSettings key options in
  let userDefaults := nullish (defaultSettings options) noSettings in
  (∀ arg allowed,
     customToolsOnly options = Some arg → arg ≠ CtoFlag false →
     allowedTools resolved = Some allowed →
     allowed ≠ [] ∧ disallowedTools resolved = None)
  ∧ (customToolsOnly options = None ∨ customToolsOnly options = Some (CtoFlag false) →
     disallowedTools resolved
     = lengthOrUndefined
         (first_occurrences
            (filter (λ t, t ≠ EmptyString) (default [] (disallowedTools userDefaults))))).
Proof.
  intros resolved userDefaults. unfold resolved. split.
  - intros arg allowed Harg Hon. apply normalize_active in Hon. rewrite <-Harg in Hon.
    unfold createZaiClaudeCode_resolvedSettings. simpl. rewrite Hon. intros Hallowed.
    split.
    + rewrite mergeAllowedTools_merged in Hallowed.
      by apply lengthOrUndefined_Some in Hallowed as [_ ?].
    + destruct (noLength _) eqn:Hlen; [|done].
      apply noLength_mergeAllowedTools in Hlen. congruence.
  - intros Hoff. unfold createZaiClaudeCode_resolvedSettings.
    rewrite (normalize_inactive _ Hoff). simpl. apply mergeStringLists_nil.
Qed.

Lemma customToolsOnly_allowed_excludes_disallowed_witness :
  allowedTools (createZaiClaudeCode_resolvedSettings "unit-key" guardrailOptions)
    = Some ["CustomTool"; "AnotherTool"]
  ∧ disallowedTools (createZaiClaudeCode_resolvedSettings "unit-key" guardrailOptions) = None.
Proof.
  assert (Hallowed :
    allowedTools (createZaiClaudeCode_resolvedSettings "unit-key" guardrailOptions)
    = Some ["CustomTool"; "AnotherTool"]) by reflexivity.
  split; [exact Hallowed|].
  refine (proj2 (proj1 (customToolsOnly_allowed_excludes_disallowed "unit-key"
                          guardrailOptions)
                   _ ["CustomTool"; "AnotherTool"] eq_refl _ Hallowed)).
  discriminate.
Defined.

(** C4, as stated, fails when the policy is inactive: the default allowlist
    is attached together with the disallowed list of the default settings. *)
Lemma inactive_policy_attaches_both_lists :
  allowedTools (createZaiClaudeCode_resolvedSettings "unit-key" blocklistOptions)
    = Some (CORE_ALLOWED_TOOLS ++ WEB_SEARCH_ALLOWED_TOOLS
            ++ WEB_READER_ALLOWED_TOOLS ++ VISION_ALLOWED_TOOLS)
  ∧ disallowedTools (createZaiClaudeCode_resolvedSettings "unit-key" blocklistOptions)
    = Some ["WebFetch"].
Proof. split; reflexivity. Qed.

Lemma NoDup_DEFAULT_CUSTOM_TOOLS_DISALLOWED : NoDup DEFAULT_CUSTOM_TOOLS_DISALLOWED.
Proof. by_compute. Qed.

Lemma mergeStringLists_no_user defaults user :
  default [] user = [] → mergeStringLists defaults user = lengthOrUndefined defaults.
Proof.
  intros Hu. rewrite mergeStringLists_merged. unfold spec_merged.
  by rewrite Hu, filter_nil, first_occurrences_nil, app_nil_r.
Qed.

Lemma mergeStringLists_foldl defaults user :
  mergeStringLists defaults user =
  lengthOrUndefined (foldl mergeStringLists_step defaults (default [] user)).
Proof. by destruct user as [[|t user]|]. Qed.

Lemma nullish_lengthOrUndefined (l : list string) :
  nullish (lengthOrUndefined l) [] = l.
Proof. by destruct l. Qed.

(** Merging extra names into the always-blocked pair, then merging a
    further list into the outcome, is one merge of the two lists in a row
    into the pair. *)
Lemma merge_blocked_twice (extra1 extra2 : option (list string)) :
  mergeStringLists
    (nullish (mergeStringLists DEFAULT_CUSTOM_TOOLS_DISALLOWED extra1) []) extra2
  = Some (DEFAULT_CUSTOM_TOOLS_DISALLOWED
          ++ first_occurrences
               (filter (appendable DEFAULT_CUSTOM_TOOLS_DISALLOWED)
                  (default [] extra1 ++ default [] extra2))).
Proof.
  rewrite (mergeStringLists_foldl _ extra1), nullish_lengthOrUndefined.
  rewrite mergeStringLists_foldl, <-foldl_app.
  change (foldl mergeStringLists_step) with (foldl mergeAllowedTools_step).
  by rewrite mergeAllowedTools_loop.
Qed.

(** C6 (amended).  When the custom-tools-only policy is active, the
    resolved allowlist is the policy's allowlist merged with the allowlist
    of the default settings; a disallowed list is attached exactly when that
    allowlist is absent; it is then the always-blocked pair followed by the
    names of the policy's extra blocked list and, after them, of the
    disallowed list of the default settings, without the empty name and the
    names of the pair, each name once at its first occurrence; and it is the
    pair merged with the policy's extra names alone when the default
    settings carry no disallowed list. *)
Theorem customToolsOnly_tool_lists (key : string) (options : CreateZaiClaudeCodeOptions)
    (arg : CustomToolsOnlyArg) :
  customToolsOnly options = Some arg →
  arg ≠ CtoFlag false →
  let policy := customToolsOnly_options arg in
  let userDefaults := nullish (defaultSettings options) noSettings in
  let resolved := createZaiClaudeCode_resolvedSettings key options in
  let blocked :=
    DEFAULT_CUSTOM_TOOLS_DISALLOWED
    ++ first_occurrences
         (filter (appendable DEFAULT_CUSTOM_TOOLS_DISALLOWED)
            (default [] (cto_disallowedTools policy)
             ++ default [] (disallowedTools userDefaults))) in
  allowedTools resolved
    = mergeAllowedTools (nullish (cto_allowedTools policy) []) (allowedTools userDefaults)
  ∧ (is_Some (disallowedTools resolved) ↔ allowedTools resolved = None)
  ∧ (allowedTools resolved = None → disallowedTools resolved = Some blocked)
  ∧ NoDup blocked
  ∧ (∀ t, t ∈ blocked ↔
          t ∈ DEFAULT_CUSTOM_TOOLS_DISALLOWED
          ∨ (t ≠ EmptyString
             ∧ (t ∈ default [] (cto_disallowedTools policy)
                ∨ t ∈ default [] (disallowedTools userDefaults))))
  ∧ (allowedTools resolved = None →
     default [] (disallowedTools userDefaults) = [] →
     disallowedTools resolved
     = mergeStringLists DEFAULT_CUSTOM_TOOLS_DISALLOWED (cto_disallowedTools policy)).
Proof.
  intros Harg Hon policy userDefaults resolved blocked.
  assert (Hnorm : normalizeCustomToolsOnlyOptions (customToolsOnly options) =
    {| enabled := true;
       n_allowedTools := nullish (cto_allowedTools policy) [];
       n_disallowedTools :=
         nullish (mergeStringLists DEFAULT_CUSTOM_TOOLS_DISALLOWED
                    (cto_disallowedTools policy)) [];
       n_systemPrompt := cto_systemPrompt policy;
       n_appendSystemPrompt := cto_appendSystemPrompt policy |}).
  { rewrite Harg. unfold policy. by destruct arg as [[]|o]. }
  assert (Hallowed : allowedTools resolved =
    mergeAllowedTools (nullish (cto_allowedTools policy) []) (allowedTools userDefaults)).
  { unfold resolved, createZaiClaudeCode_resolvedSettings. by rewrite Hnorm. }
  assert (Hdis : disallowedTools resolved =
    if noLength (allowedTools resolved)
    then mergeStringLists
           (nullish (mergeStringLists DEFAULT_CUSTOM_TOOLS_DISALLOWED
                       (cto_disallowedTools policy)) [])
           (disallowedTools userDefaults)
    else None).
  { unfold resolved, createZaiClaudeCode_resolvedSettings. by rewrite Hnorm. }
  pose proof (merge_blocked_twice (cto_disallowedTools policy)
                (disallowedTools userDefaults)) as Hmerge.
  fold blocked in Hmerge. clearbody resolved.
  split; [exact Hallowed|]. split; [|split; [|split; [|split]]].
  - rewrite Hdis, Hmerge.
    destruct (noLength (allowedTools resolved)) eqn:Hlen; rewrite Hallowed in Hlen |- *.
    + apply noLength_mergeAllowedTools in Hlen. split; [by intros _|by eexists].
    + split; [by intros [? ?]|]. intros Hnone.
      apply noLength_mergeAllowedTools in Hnone. congruence.
  - intros Hnone. rewrite Hdis, Hnone. cbn [noLength]. exact Hmerge.
  - exact (NoDup_spec_merged DEFAULT_CUSTOM_TOOLS_DISALLOWED
             (Some (default [] (cto_disallowedTools policy)
                    ++ default [] (disallowedTools userDefaults)))
             NoDup_DEFAULT_CUSTOM_TOOLS_DISALLOWED).
  - intros t.
    pose proof (elem_of_spec_merged DEFAULT_CUSTOM_TOOLS_DISALLOWED
                  (Some (default [] (cto_disallowedTools policy)
                         ++ default [] (disallowedTools userDefaults))) t) as Hin.
    unfold spec_merged in Hin. simpl default in Hin. fold blocked in Hin.
    rewrite Hin, elem_of_app.
    destruct (decide (t ∈ DEFAULT_CUSTOM_TOOLS_DISALLOWED)); tauto.
  - intros Hnone Hud. rewrite Hdis, Hnone. cbn [noLength].
    rewrite (mergeStringLists_no_user _ _ Hud).
    destruct (mergeStringLists _ (cto_disallowedTools policy)) as [l|] eqn:E; [|done].
    rewrite mergeStringLists_merged in E.
    apply lengthOrUndefined_Some in E as [_ Hl]. by destruct l.
Qed.

Lemma customToolsOnly_tool_lists_witness :
  customToolsOnly extraBlockedOptions
    = Some (CtoOptions {| cto_systemPrompt := None; cto_appendSystemPrompt := None;
                          cto_allowedTools := None;
                          cto_disallowedTools := Some ["Read"] |})
  ∧ allowedTools (createZaiClaudeCode_resolvedSettings "unit-key" extraBlockedOptions) = None
  ∧ disallowedTools (createZaiClaudeCode_resolvedSettings "unit-key" extraBlockedOptions)
    = Some ["Bash(*)"; "Task(*)"; "Read"].
Proof.
  split; [reflexivity|].
  destruct (customToolsOnly_tool_lists "unit-key" extraBlockedOptions _ eq_refl)
    as (Hallowed & _ & Hdis & _); [discriminate|].
  split; [exact Hallowed|]. exact (Hdis Hallowed).
Defined.

(** C6, as stated, fails: with the policy active, no allowlist and no
    policy-supplied extra names, the disallowed list is not the
    always-blocked pair but also carries the disallowed list of the default
    settings. *)
Lemma customToolsOnly_disallowed_includes_defaults :
  allowedTools (createZaiClaudeCode_resolvedSettings "unit-key" defaultsBlockedOptions) = None
  ∧ disallowedTools (createZaiClaudeCode_resolvedSettings "unit-key" defaultsBlockedOptions)
    = Some ["Bash(*)"; "Task(*)"; "Read"]
  ∧ mergeStringLists DEFAULT_CUSTOM_TOOLS_DISALLOWED
      (cto_disallowedTools (customToolsOnly_options (CtoFlag true)))
    = Some ["Bash(*)"; "Task(*)"].
Proof. repeat split; reflexivity. Qed.

(** ** Facts about the auxiliary-server mapping *)

Lemma builtinMcpServers_lookup key vision reader search visionCommand k :
  builtinMcpServers key vision reader search visionCommand !! k =
  if decide (k = "zai-vision") then
    if vision then Some (visionDescriptor key visionCommand) else None
  else if decide (k = "web-reader") then
    if reader then Some (webReaderDescriptor key) else None
  else if decide (k = "web-search-prime") then
    if search then Some (webSearchDescriptor key) else None
  else None.
Proof.
  unfold builtinMcpServers.
  destruct vision, reader, search; repeat case_decide; by simplify_map_eq.
Qed.

Lemma builtinMcpServers_size key vision reader search visionCommand :
  size (builtinMcpServers key vision reader search visionCommand) = 0 ↔
  vision = false ∧ reader = false ∧ search = false.
Proof.
  rewrite map_size_empty_iff. split.
  - intros Hempty.
    pose proof (builtinMcpServers_lookup key vision reader search visionCommand) as Hl.
    rewrite Hempty in Hl.
    pose proof (Hl "zai-vision") as H1. pose proof (Hl "web-reader") as H2.
    pose proof (Hl "web-search-prime") as H3.
    rewrite lookup_empty in H1, H2, H3.
    destruct vision, reader, search; try done.
  - by intros (-> & -> & ->).
Qed.

Lemma resolved_mcpServers key options :
  mcpServers (createZaiClaudeCode_resolvedSettings key options) =
  let active := enabled (normalizeCustomToolsOnlyOptions (customToolsOnly options)) in
  mergeMcpServers key
    (nullish (enableVisionMcp options) true && negb active)
    (nullish (enableWebReaderMcp options) true && negb active)
    (nullish (enableWebSearchMcp options) true && negb active)
    (mcpServers (nullish (defaultSettings options) noSettings))
    (visionCommand options).
Proof.
  unfold createZaiClaudeCode_resolvedSettings. simpl.
  destruct (enabled _); simpl; by rewrite ?andb_false_r, ?andb_true_r.
Qed.

Lemma normalize_enabled_requested customToolsOnly :
  enabled (normalizeCustomToolsOnlyOptions customToolsOnly) =
  match customToolsOnly with
  | None | Some (CtoFlag false) => false
  | Some (CtoFlag true) | Some (CtoOptions _) => true
  end.
Proof. by destruct customToolsOnly as [[[]|o]|]. Qed.

(** C7.  The built-in part of the auxiliary-server mapping holds the
    descriptor of a capability exactly when the capability's enable flag
    (true unless set to false) is true and the custom-tools-only policy is
    inactive (the option [customToolsOnly] is absent or [false]), and holds
    nothing else; a user-supplied mapping is overlaid on it, each user entry
    replacing the built-in entry of the same key as a whole; and without a
    user mapping the result is [undefined] when no capability is enabled,
    and the built-in part otherwise. *)
Theorem mcpServers_spec (key : string) (options : CreateZaiClaudeCodeOptions) :
  let active :=
    match customToolsOnly options with
    | None | Some (CtoFlag false) => false
    | Some (CtoFlag true) | Some (CtoOptions _) => true
    end in
  let search := nullish (enableWebSearchMcp options) true && negb active in
  let reader := nullish (enableWebReaderMcp options) true && negb active in
  let vision := nullish (enableVisionMcp options) true && negb active in
  let user := mcpServers (nullish (defaultSettings options) noSettings) in
  let resolved := mcpServers (createZaiClaudeCode_resolvedSettings key options) in
  ∃ builtin : gmap string McpServerConfig,
    builtin !! "web-search-prime"
      = (if search then Some (webSearchDescriptor key) else None)
    ∧ builtin !! "web-reader"
      = (if reader then Some (webReaderDescriptor key) else None)
    ∧ builtin !! "zai-vision"
      = (if vision then Some (visionDescriptor key (visionCommand options)) else None)
    ∧ (∀ k, k ∉ ["web-search-prime"; "web-reader"; "zai-vision"] → builtin !! k = None)
    ∧ (∀ u, user = Some u →
         ∃ merged, resolved = Some merged
                   ∧ ∀ k, merged !! k = match u !! k with
                                        | Some descriptor => Some descriptor
                                        | None => builtin !! k
                                        end)
    ∧ (user = None →
       resolved = if search || reader || vision then Some builtin else None).
Proof.
  intros active search reader vision user resolved.
  assert (Hactive : enabled (normalizeCustomToolsOnlyOptions (customToolsOnly options))
                    = active) by apply normalize_enabled_requested.
  exists (builtinMcpServers key vision reader search (visionCommand options)).
  repeat split.
  - by rewrite builtinMcpServers_lookup.
  - by rewrite builtinMcpServers_lookup.
  - by rewrite builtinMcpServers_lookup.
  - intros k Hk. rewrite builtinMcpServers_lookup.
    repeat case_decide; subst; try done; exfalso; apply Hk; by_compute.
  - intros u Hu. unfold resolved. rewrite resolved_mcpServers. cbv zeta.
    rewrite Hactive. fold vision reader search user. rewrite Hu.
    unfold mergeMcpServers.
    eexists. split; [done|]. intros k. rewrite lookup_union.
    destruct (u !! k), (builtinMcpServers _ _ _ _ _ !! k); done.
  - intros Hu. unfold resolved. rewrite resolved_mcpServers. cbv zeta.
    rewrite Hactive. fold vision reader search user. rewrite Hu.
    unfold mergeMcpServers.
    clearbody search reader vision.
    pose proof (builtinMcpServers_size key vision reader search (visionCommand options))
      as Hsize.
    destruct (size _) as [|n].
    + destruct (proj1 Hsize eq_refl) as (-> & -> & ->). done.
    + destruct search, reader, vision; try done.
      discriminate (proj2 Hsize (conj eq_refl (conj eq_refl eq_refl))).
Qed.

Example mcpServers_all_disabled :
  mcpServers (createZaiClaudeCode_resolvedSettings "unit-key"
    {| apiKey := Some "unit-key"; modelMappings := None;
       includeDefaultAllowedTools := Some false; enableWebSearchMcp := Some false;
       enableWebReaderMcp := Some false; enableVisionMcp := Some false;
       visionCommand := None; customToolsOnly := None; defaultSettings := None |})
  = None.
Proof. reflexivity. Qed.

(** ** Facts about the wrapped provider *)

Lemma resolveModelId_Return_alias modelMappings requestedId resolved :
  resolveModelId requestedId (effectiveMappings modelMappings) = Return resolved →
  resolved ∈ CLAUDE_ALIASES.
Proof.
  unfold resolveModelId.
  destruct (includes CLAUDE_ALIASES requestedId) eqn:Hinc.
  - intros [= <-]. by apply includes_true.
  - rewrite resolveModelId_scan_first_alias.
    destruct (first_alias_for _ _) as [k|] eqn:Hk; [|done]. intros [= <-].
    destruct (first_alias_for_is_alias _ _ _ Hk) as (a & -> & _).
    apply alias_name_in_CLAUDE_ALIASES.
Qed.

(** C9 (amended).  On the callable form, [languageModel] and [chat], the
    wrapped provider invokes the base provider with the identifier
    [resolveModelId] returns, which is one of the three alias names, and it
    does not invoke the base provider at all when [resolveModelId] throws;
    [imageModel] and [textEmbeddingModel] pass the identifier they receive
    to the base provider unchanged. *)
Theorem wrapped_provider_resolves {Model} (baseProvider : ClaudeCodeProvider Model)
    (modelMappings : option (list (ClaudeModelAlias * string)))
    (modelId : string) (settings : option ClaudeCodeSettings) :
  let mappings := effectiveMappings modelMappings in
  let wrapped := wrapProviderWithModelResolution baseProvider mappings in
  (∀ resolved, resolveModelId modelId mappings = Return resolved →
     resolved ∈ CLAUDE_ALIASES
     ∧ provider_call wrapped modelId settings = provider_call baseProvider resolved settings
     ∧ languageModel wrapped modelId settings = languageModel baseProvider resolved settings
     ∧ chat wrapped modelId settings = chat baseProvider resolved settings)
  ∧ (∀ e, resolveModelId modelId mappings = Throw e →
       provider_call wrapped modelId settings = Throw e
       ∧ languageModel wrapped modelId settings = Throw e
       ∧ chat wrapped modelId settings = Throw e)
  ∧ imageModel wrapped modelId = imageModel baseProvider modelId
  ∧ textEmbeddingModel wrapped modelId = textEmbeddingModel baseProvider modelId
  ∧ (∀ defaults invocation,
       let recorded :=
         wrapProviderWithModelResolution (recordingProvider defaults) mappings in
       provider_call recorded modelId settings = Return invocation
       ∨ languageModel recorded modelId settings = Return invocation
       ∨ chat recorded modelId settings = Return invocation →
       resolveModelId modelId mappings = Return (inv_modelId invocation)
       ∧ inv_modelId invocation ∈ CLAUDE_ALIASES).
Proof.
  intros mappings wrapped. split; [|split; [|split; [|split]]].
  - intros resolved Hres. split; [by eapply resolveModelId_Return_alias|].
    unfold wrapped. simpl. by rewrite Hres.
  - intros e Hres. unfold wrapped. simpl. by rewrite Hres.
  - done.
  - done.
  - intros defaults invocation recorded. unfold recorded. simpl.
    destruct (resolveModelId modelId mappings) as [resolved|e] eqn:Hres; simpl.
    + intros [[= <-]|[[= <-]|[= <-]]]; simpl;
        (split; [done|by eapply resolveModelId_Return_alias]).
    + by intros [?|[?|?]].
Qed.

(** C9, as stated, fails on [imageModel] and [textEmbeddingModel]: the
    base provider receives ["glm-4.6"] as given, not the alias ["sonnet"]
    that [resolveModelId] yields for it. *)
Lemma imageModel_receives_raw_id :
  resolveModelId "glm-4.6" (effectiveMappings None) = Return "sonnet"
  ∧ inv_modelId <$> imageModel
      (wrapProviderWithModelResolution (recordingProvider noSettings)
         (effectiveMappings None)) "glm-4.6"
    = Return "glm-4.6"
  ∧ inv_modelId <$> textEmbeddingModel
      (wrapProviderWithModelResolution (recordingProvider noSettings)
         (effectiveMappings None)) "glm-4.6"
    = Return "glm-4.6".
Proof. repeat split; reflexivity. Qed.

(** ** Facts about forced tool injection *)

Section ForceCustomToolsFacts.
Context {Input Output Model Stream : Type}.
Variable streamText : StreamTextArgs Input Output Model → Completion Stream.

Abbreviation Args := (ForceCustomToolsArgs Input Output Model).
Abbreviation Call := (ExternalCall Input Output Model).

Lemma forceCustomTools_not_found (a : Args) :
  tool_not_executable a → forceCustomTools streamText a = not_found a.
Proof.
  unfold tool_not_executable, forceCustomTools.
  intros [->|([exec] & -> & Hexec)]; [done|]. simpl in Hexec. by subst.
Qed.

Lemma forceCustomTools_executable (a : Args) tool handler :
  tools a !! toolName a = Some tool → execute tool = Some handler →
  let options :=
    {| toolCallId := "forced:" +:+ toolName a; exec_messages := messages a |} in
  let call := ExecuteCall (toolName a) (toolInput a) options in
  forceCustomTools streamText a =
  match handler (toolInput a) options with
  | Throw e => {| calls := [call]; outcome := Throw e |}
  | Return manualResult =>
      let args :=
        {| st_model := model a; st_tools := tools a; st_toolChoice := toolName a;
           st_messages :=
             {| role := "system";
                content := TextContent (nullish (fc_systemPrompt a)
                                          DEFAULT_CUSTOM_TOOLS_SYSTEM_PROMPT) |}
             :: messages a
             ++ [{| role := "assistant";
                    content := BlockContent
                      (manualBlocks (toolName a) (toolInput a) manualResult
                         (nullish (acknowledgement a) DEFAULT_ACKNOWLEDGEMENT)) |}] |} in
      {| calls := [call; StreamTextCall args]; outcome := streamText args |}
  end.
Proof.
  intros Htool Hexec. unfold forceCustomTools. rewrite Htool.
  destruct tool as [exec]. simpl in Hexec. subst exec. cbv zeta.
  unfold mbind, Traced_bind, external. simpl.
  by destruct (handler _ _).
Qed.

Lemma manualBlocks_spec name (input : Input) (manualResult : Output) ack :
  manualBlocks name input manualResult ack =
  [ToolCallBlock name input; ToolResultBlock name manualResult]
  ++ (if decide (ack = EmptyString) then [] else [TextBlock ack]).
Proof. unfold manualBlocks. by destruct ack. Qed.

(** C10 (amended).  [forceCustomTools] fails with the tool-not-found error,
    without any external call, exactly when the named tool is absent from
    the tool map or has no [execute] function.  Otherwise it calls that
    [execute] exactly once, first, with the given input; and when [execute]
    returns, it calls [streamText] with the same model and tools, with
    [toolChoice] pinned to the tool name, and with the message history
    followed by an assistant turn that holds a tool-call block, a
    tool-result block and, when the acknowledgement in effect (the one
    supplied, or the built-in text when none is supplied) is non-empty, a
    text block with that acknowledgement. *)
Theorem forceCustomTools_spec (a : Args) :
  let ack := nullish (acknowledgement a) DEFAULT_ACKNOWLEDGEMENT in
  let options :=
    {| toolCallId := "forced:" +:+ toolName a; exec_messages := messages a |} in
  let run := forceCustomTools streamText a in
  (run = not_found a ↔ tool_not_executable a)
  ∧ (calls run = [] ↔ tool_not_executable a)
  ∧ (¬ tool_not_executable a →
     head (calls run) = Some (ExecuteCall (toolName a) (toolInput a) options)
     ∧ length (filter (λ c, is_execute_call c) (calls run)) = 1)
  ∧ (∀ tool handler manualResult,
       tools a !! toolName a = Some tool →
       execute tool = Some handler →
       handler (toolInput a) options = Return manualResult →
       ∃ system turn args,
         calls run = [ExecuteCall (toolName a) (toolInput a) options; StreamTextCall args]
         ∧ outcome run = streamText args
         ∧ st_model args = model a
         ∧ st_tools args = tools a
         ∧ st_toolChoice args = toolName a
         ∧ st_messages args = system :: messages a ++ [turn]
         ∧ role system = "system"
         ∧ role turn = "assistant"
         ∧ content turn =
             BlockContent
               ([ToolCallBlock (toolName a) (toolInput a);
                 ToolResultBlock (toolName a) manualResult]
                ++ (if decide (ack = EmptyString) then [] else [TextBlock ack]))).
Proof.
  intros ack options run.
  assert (Hcases : tool_not_executable a
                   ∨ ∃ tool handler, tools a !! toolName a = Some tool
                                     ∧ execute tool = Some handler).
  { unfold tool_not_executable.
    destruct (tools a !! toolName a) as [[[handler|]]|] eqn:Htool.
    - right. by eexists _, _.
    - left. right. by eexists.
    - left. by left. }
  assert (Hrun : ∀ tool handler, tools a !! toolName a = Some tool →
                   execute tool = Some handler →
                   head (calls run) = Some (ExecuteCall (toolName a) (toolInput a) options)
                   ∧ length (filter (λ c, is_execute_call c) (calls run)) = 1).
  { intros tool handler Htool Hexec. unfold run.
    rewrite (forceCustomTools_executable a tool handler Htool Hexec). cbv zeta.
    by destruct (handler _ _). }
  split; [|split; [|split]].
  - split; [|apply forceCustomTools_not_found].
    intros Hnf. destruct Hcases as [?|(tool & handler & Htool & Hexec)]; [done|].
    destruct (Hrun tool handler Htool Hexec) as [Hhead _].
    rewrite Hnf in Hhead. done.
  - split.
    + intros Hnil. destruct Hcases as [?|(tool & handler & Htool & Hexec)]; [done|].
      destruct (Hrun tool handler Htool Hexec) as [Hhead _].
      rewrite Hnil in Hhead. done.
    + intros Hnf. unfold run. by rewrite (forceCustomTools_not_found a Hnf).
  - intros Hex. destruct Hcases as [?|(tool & handler & Htool & Hexec)]; [done|].
    by apply (Hrun tool handler).
  - intros tool handler manualResult Htool Hexec Hres. unfold run.
    rewrite (forceCustomTools_executable a tool handler Htool Hexec). cbv zeta.
    fold options. rewrite Hres. eexists _, _, _. simpl.
    repeat split. simpl. by rewrite manualBlocks_spec.
Qed.

End ForceCustomToolsFacts.

Lemma forceCustomTools_spec_witness :
  ∃ args,
    calls (forceCustomTools echoStream (echoArgs (Some "ack")))
    = [ExecuteCall "echo_tool" "custom_check"
         {| toolCallId := "forced:echo_tool"; exec_messages := messages (echoArgs (Some "ack")) |};
       StreamTextCall args]
    ∧ st_toolChoice args = "echo_tool"
    ∧ (content <$> last (st_messages args))
      = Some (BlockContent [ToolCallBlock "echo_tool" "custom_check";
                            ToolResultBlock "echo_tool" "custom_check";
                            TextBlock "ack"]).
Proof.
  destruct (forceCustomTools_spec echoStream (echoArgs (Some "ack"))) as (_ & _ & _ & H).
  destruct (H _ _ "custom_check" eq_refl eq_refl eq_refl)
    as (system & turn & args & Hcalls & _ & _ & _ & Hchoice & Hmsgs & _ & _ & Hcontent).
  exists args. split; [exact Hcalls|]. split; [exact Hchoice|].
  rewrite Hmsgs, app_comm_cons, last_snoc. simpl. by rewrite Hcontent.
Defined.

(** C10, as stated, fails for an acknowledgement that is supplied but
    empty: the assistant turn then holds the tool-call and tool-result
    blocks only. *)
Lemma forceCustomTools_empty_acknowledgement :
  acknowledgement (echoArgs (Some EmptyString)) = Some EmptyString
  ∧ (st_messages <$> outcome (forceCustomTools echoStream (echoArgs (Some EmptyString))))
    = Return [{| role := "system";
                 content := TextContent DEFAULT_CUSTOM_TOOLS_SYSTEM_PROMPT |};
              {| role := "system"; content := TextContent "be concise" |};
              {| role := "user"; content := TextContent "run tool" |};
              {| role := "assistant";
                 content := BlockContent [ToolCallBlock "echo_tool" "custom_check";
                                          ToolResultBlock "echo_tool" "custom_check"] |}].
Proof. split; reflexivity. Qed.

(** * Further properties *)

(** ** Merging tool lists, continued *)

Lemma lengthOrUndefined_inj (l1 l2 : list string) :
  lengthOrUndefined l1 = lengthOrUndefined l2 → l1 = l2.
Proof. destruct l1, l2; simpl; congruence. Qed.

Lemma first_occurrences_eq_nil l : first_occurrences l = [] ↔ l = [].
Proof.
  split; [|by intros ->].
  destruct l as [|x l]; [done|]. intros Hnil.
  assert (Hin : x ∈ first_occurrences (x :: l))
    by (apply elem_of_first_occurrences; left).
  rewrite Hnil in Hin. by apply elem_of_nil in Hin.
Qed.

Lemma spec_merged_noop defaults user :
  spec_merged defaults user = defaults ↔
  ∀ t, t ∈ default [] user → t = EmptyString ∨ t ∈ defaults.
Proof.
  unfold spec_merged. split.
  - intros Heq t Ht.
    assert (Hnil : first_occurrences (filter (appendable defaults) (default [] user)) = []).
    { apply (app_inv_head defaults). by rewrite app_nil_r. }
    apply (proj1 (first_occurrences_eq_nil _)) in Hnil.
    destruct (decide (t = EmptyString)) as [|Hne]; [by left|]. right.
    destruct (decide (t ∈ defaults)) as [|Hnd]; [done|]. exfalso.
    assert (Hin : t ∈ filter (appendable defaults) (default [] user))
      by (apply list_elem_of_filter; split; [split|]; done).
    rewrite Hnil in Hin. by apply elem_of_nil in Hin.
  - intros Hall.
    assert (Hnil : filter (appendable defaults) (default [] user) = []).
    { destruct (filter _ _) as [|t l] eqn:Hf; [done|]. exfalso.
      assert (Hin : t ∈ filter (appendable defaults) (default [] user))
        by (rewrite Hf; left).
      apply list_elem_of_filter in Hin as [[Hne Hnd] Ht].
      destruct (Hall t Ht); done. }
    by rewrite Hnil, first_occurrences_nil, app_nil_r.
Qed.

(** X1.  Merging a user list leaves the defaults as they are exactly when
    every user entry is empty or already among the defaults. *)
Theorem mergeAllowedTools_unchanged_iff (defaults : list string)
    (user : option (list string)) :
  mergeAllowedTools defaults user = lengthOrUndefined defaults ↔
  ∀ t, t ∈ default [] user → t = EmptyString ∨ t ∈ defaults.
Proof.
  rewrite mergeAllowedTools_merged, <-spec_merged_noop. split.
  - apply lengthOrUndefined_inj.
  - by intros ->.
Qed.

(** X2.  Merging is idempotent in the user list: merging the same list
    into the outcome of a merge changes nothing. *)
Theorem mergeAllowedTools_idempotent (defaults : list string)
    (user : option (list string)) :
  mergeAllowedTools (nullish (mergeAllowedTools defaults user) []) user
  = mergeAllowedTools defaults user.
Proof.
  rewrite (mergeAllowedTools_merged defaults user), nullish_lengthOrUndefined.
  rewrite mergeAllowedTools_merged. f_equal.
  apply spec_merged_noop. intros t Ht.
  destruct (decide (t = EmptyString)) as [|Hne]; [by left|]. right.
  apply elem_of_spec_merged.
  destruct (decide (t ∈ defaults)); [by left|by right].
Qed.

(** X3.  Two merges in a row are one merge with the two user lists
    concatenated: merging [user2] into the outcome of merging [user1] into
    the defaults equals merging [user1 ++ user2] into the defaults. *)
Theorem mergeStringLists_compose (defaults : list string)
    (user1 user2 : option (list string)) :
  mergeStringLists (nullish (mergeStringLists defaults user1) []) user2
  = mergeStringLists defaults (Some (default [] user1 ++ default [] user2)).
Proof.
  rewrite (mergeStringLists_foldl defaults user1), nullish_lengthOrUndefined.
  rewrite !mergeStringLists_foldl. simpl default. by rewrite foldl_app.
Qed.

(** ** The alias table, continued *)

Lemma obj_get_obj_set k k' v o :
  obj_get k (obj_set k' v o) = if decide (k' = k) then Some v else obj_get k o.
Proof.
  induction o as [|[k0 v0] o IH]; simpl.
  - by destruct (decide (k' = k)).
  - destruct (decide (k0 = k')) as [->|Hne]; simpl.
    + by destruct (decide (k' = k)).
    + destruct (decide (k0 = k)) as [->|Hne'].
      * destruct (decide (k' = k)); [congruence|done].
      * exact IH.
Qed.

Lemma obj_get_foldl_obj_set k entries o :
  obj_get k (foldl (λ o kv, obj_set kv.1 kv.2 o) o entries) =
  match last (filter (λ kv, kv.1 = k) entries) with
  | Some kv => Some kv.2
  | None => obj_get k o
  end.
Proof.
  induction entries as [|[k' v] entries IH] using rev_ind; [done|].
  rewrite foldl_app, filter_app. simpl. rewrite obj_get_obj_set.
  destruct (decide (k' = k)) as [->|Hne].
  - rewrite (filter_cons_True _ (k, v)) by done.
    by rewrite filter_nil, last_snoc.
  - rewrite (filter_cons_False _ (k', v)) by done.
    by rewrite filter_nil, app_nil_r.
Qed.

(** X4.  In the effective alias table the last user override of a key
    wins, and a key without an override keeps its built-in mapping. *)
Theorem effectiveMappings_lookup
    (modelMappings : option (list (ClaudeModelAlias * string))) (k : string) :
  obj_get k (effectiveMappings modelMappings) =
  match last (filter (λ kv, kv.1 = k) (mapping_entries modelMappings)) with
  | Some kv => Some kv.2
  | None => obj_get k DEFAULT_MODEL_MAPPINGS
  end.
Proof. unfold effectiveMappings, obj_spread. apply obj_get_foldl_obj_set. Qed.

(** X5.  Resolution is idempotent on the effective table: an identifier
    that resolves, resolves to one of the three alias names, and resolving
    that name again returns it; an identifier that is rejected stays
    rejected with the same error. *)
Theorem resolveModelId_idempotent
    (modelMappings : option (list (ClaudeModelAlias * string))) (requestedId : string) :
  (resolved ← resolveModelId requestedId (effectiveMappings modelMappings);
   resolveModelId resolved (effectiveMappings modelMappings))
  = resolveModelId requestedId (effectiveMappings modelMappings)
  ∧ ∀ resolved,
      resolveModelId requestedId (effectiveMappings modelMappings) = Return resolved →
      ∃ a, resolved = alias_name a.
Proof.
  split.
  - destruct (resolveModelId requestedId _) as [resolved|e] eqn:Hres; [|done]. simpl.
    apply resolveModelId_Return_alias, elem_of_CLAUDE_ALIASES in Hres as [a ->].
    apply resolveModelId_alias.
  - intros resolved Hres.
    by apply resolveModelId_Return_alias, elem_of_CLAUDE_ALIASES in Hres.
Qed.

(** ** The environment of the CLI *)

Section EnvironmentFacts.
Context {Number : Type}.
Variable String_of_number : Number → string.
Variable DEFAULT_TIMEOUT_MS : Number.

Lemma buildZaiEnv_alias_variable baseUrl key timeout mappings a :
  buildZaiEnv String_of_number baseUrl key timeout mappings !! alias_variable a
  = Some (obj_get (alias_name a) mappings).
Proof. unfold buildZaiEnv. destruct a; by simplify_map_eq. Qed.

Lemma buildZaiEnv_None baseUrl key timeout mappings k :
  buildZaiEnv String_of_number baseUrl key timeout mappings !! k = None ↔
  k ∉ generatedVariables.
Proof.
  rewrite <-not_elem_of_dom. unfold buildZaiEnv, generatedVariables.
  rewrite !dom_insert_L, dom_singleton_L.
  rewrite !not_elem_of_union, !not_elem_of_singleton, !not_elem_of_cons.
  pose proof (not_elem_of_nil k). tauto.
Qed.

Lemma buildZaiEnv_timeout_other baseUrl key timeout1 timeout2 mappings k :
  k ≠ "API_TIMEOUT_MS" →
  buildZaiEnv String_of_number baseUrl key timeout1 mappings !! k
  = buildZaiEnv String_of_number baseUrl key timeout2 mappings !! k.
Proof.
  intros Hk. unfold buildZaiEnv. rewrite !lookup_insert.
  repeat case_decide; congruence.
Qed.

(** X6.  In the resolved environment an entry of the user's environment
    replaces the generated entry of the same key, also when its value is
    [undefined]; every other generated entry is kept: the base URL (the
    built-in one unless given), the API key as auth token, the stringified
    timeout (the built-in one unless given) and, per alias, its mapping in
    the effective alias table; and no other key is defined. *)
Theorem createZaiClaudeCode_env_spec (key : string) (options : CreateZaiClaudeCodeOptions)
    (anthropicBaseUrl : option string) (timeoutMs : option Number)
    (userEnv : option (gmap string (option string))) :
  let env :=
    createZaiClaudeCode_env String_of_number DEFAULT_TIMEOUT_MS key options
      anthropicBaseUrl timeoutMs userEnv in
  let user := nullish userEnv ∅ in
  (∀ k v, user !! k = Some v → env !! k = Some v)
  ∧ (user !! "ANTHROPIC_BASE_URL" = None →
     env !! "ANTHROPIC_BASE_URL"
     = Some (Some (nullish anthropicBaseUrl DEFAULT_ANTHROPIC_BASE_URL)))
  ∧ (user !! "ANTHROPIC_AUTH_TOKEN" = None →
     env !! "ANTHROPIC_AUTH_TOKEN" = Some (Some key))
  ∧ (user !! "API_TIMEOUT_MS" = None →
     env !! "API_TIMEOUT_MS"
     = Some (Some (String_of_number (nullish timeoutMs DEFAULT_TIMEOUT_MS))))
  ∧ (∀ a, user !! alias_variable a = None →
          env !! alias_variable a
          = Some (obj_get (alias_name a) (effectiveMappings (modelMappings options))))
  ∧ (∀ k, env !! k = None ↔ user !! k = None ∧ k ∉ generatedVariables).
Proof.
  intros env user. unfold env, createZaiClaudeCode_env. fold user.
  split; [|split; [|split; [|split; [|split]]]].
  - intros k v Hk. by apply lookup_union_Some_l.
  - intros Hk. rewrite lookup_union_r by done. unfold buildZaiEnv. by simplify_map_eq.
  - intros Hk. rewrite lookup_union_r by done. unfold buildZaiEnv. by simplify_map_eq.
  - intros Hk. rewrite lookup_union_r by done. unfold buildZaiEnv. by simplify_map_eq.
  - intros a Hk. rewrite lookup_union_r by done. apply buildZaiEnv_alias_variable.
  - intros k. by rewrite lookup_union_None, buildZaiEnv_None.
Qed.

(** X7.  The timeout option affects the entry [API_TIMEOUT_MS] only: two
    environments resolved from inputs that differ in the timeout alone agree
    on every other key. *)
Theorem createZaiClaudeCode_env_timeout_only (key : string)
    (options : CreateZaiClaudeCodeOptions) (anthropicBaseUrl : option string)
    (timeoutMs1 timeoutMs2 : option Number)
    (userEnv : option (gmap string (option string))) :
  delete "API_TIMEOUT_MS"
    (createZaiClaudeCode_env String_of_number DEFAULT_TIMEOUT_MS key options
       anthropicBaseUrl timeoutMs1 userEnv)
  = delete "API_TIMEOUT_MS"
      (createZaiClaudeCode_env String_of_number DEFAULT_TIMEOUT_MS key options
         anthropicBaseUrl timeoutMs2 userEnv).
Proof.
  apply map_eq. intros k. rewrite !lookup_delete.
  case_decide as Hk; [done|].
  unfold createZaiClaudeCode_env. rewrite !lookup_union. f_equal.
  apply buildZaiEnv_timeout_other. congruence.
Qed.

End EnvironmentFacts.

(** ** Overrides that hold [undefined] *)

Lemma obj_set_partial_defined k v o :
  obj_set_partial k (Some v) (defined o) = defined (obj_set k v o).
Proof.
  unfold defined. induction o as [|[k0 v0] o IH]; simpl; [done|].
  destruct (decide (k0 = k)); simpl; [done|]. f_equal. exact IH.
Qed.

Lemma foldl_obj_set_partial_defined entries o :
  foldl (λ o kv, obj_set_partial kv.1 kv.2 o) (defined o) (defined entries)
  = defined (foldl (λ o kv, obj_set kv.1 kv.2 o) o entries).
Proof.
  revert o. induction entries as [|[k v] entries IH]; intros o; simpl; [done|].
  rewrite obj_set_partial_defined. apply IH.
Qed.

Lemma mapping_entries_partial_defined modelMappings :
  mapping_entries_partial (defined_overrides modelMappings)
  = defined (mapping_entries modelMappings).
Proof.
  destruct modelMappings as [m|]; simpl; [|done].
  unfold defined. rewrite <-!list_fmap_compose. by apply list_fmap_ext.
Qed.

(** On overrides that hold strings only, the table with optional values is
    the table of strings. *)
Lemma effectiveMappings_partial_defined modelMappings :
  effectiveMappings_partial (defined_overrides modelMappings)
  = defined (effectiveMappings modelMappings).
Proof.
  unfold effectiveMappings_partial, effectiveMappings, obj_spread.
  rewrite mapping_entries_partial_defined.
  by rewrite <-!foldl_obj_set_partial_defined.
Qed.

Lemma obj_get_partial_defined k o : obj_get_partial k (defined o) = obj_get k o.
Proof.
  induction o as [|[k0 v0] o IH]; simpl; [done|]. by destruct (decide (k0 = k)).
Qed.

Lemma resolveModelId_partial_defined requestedId mappings :
  resolveModelId_partial requestedId (defined mappings)
  = resolveModelId requestedId mappings.
Proof.
  unfold resolveModelId_partial, resolveModelId.
  destruct (includes CLAUDE_ALIASES requestedId); [done|].
  assert (H : resolveModelId_scan_partial requestedId (defined mappings)
              = resolveModelId_scan requestedId mappings); [|by rewrite H].
  induction mappings as [|[k v] mappings IH]; simpl; [done|].
  destruct (decide (v = requestedId)) as [->|Hne].
  - by rewrite decide_True.
  - rewrite decide_False by congruence. exact IH.
Qed.

Lemma obj_get_partial_obj_set_partial k k' v o :
  obj_get_partial k (obj_set_partial k' v o)
  = if decide (k' = k) then v else obj_get_partial k o.
Proof.
  induction o as [|[k0 v0] o IH]; simpl.
  - by destruct (decide (k' = k)).
  - destruct (decide (k0 = k')) as [->|Hne]; simpl.
    + by destruct (decide (k' = k)).
    + destruct (decide (k0 = k)) as [->|Hne'].
      * destruct (decide (k' = k)); [congruence|done].
      * exact IH.
Qed.

Lemma obj_get_partial_foldl k entries o :
  obj_get_partial k (foldl (λ o kv, obj_set_partial kv.1 kv.2 o) o entries) =
  match last (filter (λ kv, kv.1 = k) entries) with
  | Some kv => kv.2
  | None => obj_get_partial k o
  end.
Proof.
  induction entries as [|[k' v] entries IH] using rev_ind; [done|].
  rewrite foldl_app, filter_app. simpl. rewrite obj_get_partial_obj_set_partial.
  destruct (decide (k' = k)) as [->|Hne].
  - rewrite (filter_cons_True _ (k, v)) by done.
    by rewrite filter_nil, last_snoc.
  - rewrite (filter_cons_False _ (k', v)) by done.
    by rewrite filter_nil, app_nil_r.
Qed.

Lemma effectiveMappings_partial_lookup modelMappings k :
  obj_get_partial k (effectiveMappings_partial modelMappings) =
  match last (filter (λ kv, kv.1 = k) (mapping_entries_partial modelMappings)) with
  | Some kv => kv.2
  | None => obj_get k DEFAULT_MODEL_MAPPINGS
  end.
Proof.
  unfold effectiveMappings_partial. rewrite obj_get_partial_foldl.
  destruct (last _); [done|].
  change (foldl _ [] (defined DEFAULT_MODEL_MAPPINGS)) with (defined DEFAULT_MODEL_MAPPINGS).
  apply obj_get_partial_defined.
Qed.

(** Whatever the overrides, the table enumerates the three aliases in the
    order of the built-in table. *)
Lemma effectiveMappings_partial_shape modelMappings :
  ∃ s o h, effectiveMappings_partial modelMappings
           = [("sonnet", s); ("opus", o); ("haiku", h)].
Proof.
  unfold effectiveMappings_partial.
  change (foldl _ [] (defined DEFAULT_MODEL_MAPPINGS))
    with [("sonnet", Some "glm-4.6"); ("opus", Some "glm-4.6");
          ("haiku", Some "glm-4.5-air")].
  generalize (Some "glm-4.6") at 1 as s. generalize (Some "glm-4.6") as o.
  generalize (Some "glm-4.5-air") as h.
  destruct modelMappings as [m|]; simpl; [|intros; by eexists _, _, _].
  induction m as [|[a v] m IH]; intros h o s; simpl.
  - by eexists _, _, _.
  - destruct a; simpl; apply IH.
Qed.

Lemma resolveModelId_partial_exported modelMappings a m :
  obj_get_partial (alias_name a) (effectiveMappings_partial modelMappings) = Some m →
  ∃ a', resolveModelId_partial m (effectiveMappings_partial modelMappings)
          = Return (alias_name a')
        ∧ (m ∉ CLAUDE_ALIASES →
           obj_get_partial (alias_name a') (effectiveMappings_partial modelMappings)
           = Some m).
Proof.
  destruct (effectiveMappings_partial_shape modelMappings) as (s & o & h & ->).
  intros Hget. unfold resolveModelId_partial.
  destruct (includes CLAUDE_ALIASES m) eqn:Hin.
  - apply includes_true in Hin as Hin'.
    apply elem_of_CLAUDE_ALIASES in Hin' as [a' ->].
    exists a'. split; [done|]. intros Hnin. by apply includes_true in Hin.
  - simpl. destruct (decide (s = Some m)) as [->|Hs]; [by exists sonnet|].
    destruct (decide (o = Some m)) as [->|Ho]; [by exists opus|].
    destruct (decide (h = Some m)) as [->|Hh]; [by exists haiku|].
    destruct a; simpl in Hget; congruence.
Qed.

Section EnvironmentPartialFacts.
Context {Number : Type}.
Variable String_of_number : Number → string.
Variable DEFAULT_TIMEOUT_MS : Number.

Lemma buildZaiEnv_partial_alias_variable baseUrl key timeout mappings a :
  buildZaiEnv_partial String_of_number baseUrl key timeout mappings !! alias_variable a
  = Some (obj_get_partial (alias_name a) mappings).
Proof. unfold buildZaiEnv_partial. destruct a; by simplify_map_eq. Qed.

(** On overrides that hold strings only, the environment is the one of
    [createZaiClaudeCode_env]. *)
Lemma createZaiClaudeCode_env_partial_defined key options anthropicBaseUrl timeoutMs userEnv :
  createZaiClaudeCode_env_partial String_of_number DEFAULT_TIMEOUT_MS key
    (defined_overrides (modelMappings options)) anthropicBaseUrl timeoutMs userEnv
  = createZaiClaudeCode_env String_of_number DEFAULT_TIMEOUT_MS key options
      anthropicBaseUrl timeoutMs userEnv.
Proof.
  unfold createZaiClaudeCode_env_partial, createZaiClaudeCode_env. f_equal.
  rewrite effectiveMappings_partial_defined.
  unfold buildZaiEnv_partial, buildZaiEnv. by rewrite !obj_get_partial_defined.
Qed.

(** X8.  Without a user environment, the variable of an alias carries the
    last override of the alias, [undefined] included, or else the built-in
    mapping.  An identifier that is exported is one the provider accepts:
    [resolveModelId] maps it to an alias and, unless the identifier is
    itself an alias name, the environment exports the same identifier for
    that alias.  When no override holds [undefined], every alias variable
    carries an identifier. *)
Theorem exported_models_resolve (key : string)
    (modelMappings : option (list (ClaudeModelAlias * option string)))
    (anthropicBaseUrl : option string) (timeoutMs : option Number)
    (a : ClaudeModelAlias) :
  let mappings := effectiveMappings_partial modelMappings in
  let env :=
    createZaiClaudeCode_env_partial String_of_number DEFAULT_TIMEOUT_MS key
      modelMappings anthropicBaseUrl timeoutMs None in
  let exported :=
    match last (filter (λ kv, kv.1 = alias_name a)
                  (mapping_entries_partial modelMappings)) with
    | Some kv => kv.2
    | None => obj_get (alias_name a) DEFAULT_MODEL_MAPPINGS
    end in
  env !! alias_variable a = Some exported
  ∧ (∀ m, exported = Some m →
       ∃ a', resolveModelId_partial m mappings = Return (alias_name a')
             ∧ (m ∉ CLAUDE_ALIASES → env !! alias_variable a' = Some (Some m)))
  ∧ ((∀ kv, kv ∈ mapping_entries_partial modelMappings → is_Some kv.2) →
     is_Some exported).
Proof.
  intros mappings env exported.
  assert (Henv : ∀ b, env !! alias_variable b
                      = Some (obj_get_partial (alias_name b) mappings)).
  { intros b. unfold env, createZaiClaudeCode_env_partial. simpl nullish.
    rewrite (left_id_L ∅ (∪)). apply buildZaiEnv_partial_alias_variable. }
  assert (Hexp : obj_get_partial (alias_name a) mappings = exported)
    by apply effectiveMappings_partial_lookup.
  split; [by rewrite Henv, Hexp|]. split.
  - intros m Hm. rewrite <-Hexp in Hm.
    destruct (resolveModelId_partial_exported _ _ _ Hm) as (a' & Hres & Hget).
    exists a'. split; [done|]. intros Hnin. rewrite Henv. f_equal. exact (Hget Hnin).
  - intros Hdef. unfold exported.
    destruct (last _) as [kv|] eqn:Hlast.
    + apply Hdef. apply last_Some_elem_of in Hlast.
      by apply list_elem_of_filter in Hlast as [_ ?].
    + destruct a; by eexists.
Qed.

End EnvironmentPartialFacts.

Example exported_undefined_override :
  createZaiClaudeCode_env_partial (λ n : string, n) "300000" "unit-key"
    (Some [(opus, None)]) None None None !! "ANTHROPIC_DEFAULT_OPUS_MODEL"
  = Some None
  ∧ resolveModelId_partial "glm-4.6" (effectiveMappings_partial (Some [(opus, None)]))
    = Return "sonnet".
Proof. split; [|reflexivity]. unfold createZaiClaudeCode_env_partial. by simplify_map_eq. Qed.

(** ** The Anthropic-compatible HTTP provider *)

Lemma DEFAULT_HTTP_COMPAT_MODEL_not_GLM :
  GLM_HTTP_PATTERN_test DEFAULT_HTTP_COMPAT_MODEL = false.
Proof. reflexivity. Qed.

Lemma GLM_HTTP_PATTERN_test_nonempty s : GLM_HTTP_PATTERN_test s = true → truthy s = true.
Proof. by destruct s. Qed.

(** The model a fallback setting stands for: the built-in model when the
    setting is the empty string. *)
Lemma resolveAnthropicHttpModelId_GLM requestedId model :
  GLM_HTTP_PATTERN_test requestedId = true →
  resolveAnthropicHttpModelId requestedId (FallbackTo model)
  = Return (if decide (model = EmptyString) then DEFAULT_HTTP_COMPAT_MODEL else model).
Proof.
  intros Hglm. unfold resolveAnthropicHttpModelId. rewrite Hglm. simpl.
  by destruct model.
Qed.

Lemma resolveAnthropicHttpModelId_not_GLM requestedId fallbackModel :
  GLM_HTTP_PATTERN_test requestedId = false →
  resolveAnthropicHttpModelId requestedId fallbackModel = Return requestedId.
Proof. intros Hglm. unfold resolveAnthropicHttpModelId. by rewrite Hglm. Qed.

(** X9.  [resolveAnthropicHttpModelId] throws exactly when the requested
    identifier matches the GLM pattern and the fallback is disabled, and the
    error is then the CLI-only error: the unable-to-resolve error is never
    thrown.  An identifier that does not match the pattern is returned as it
    is, whatever the fallback, and the identifier returned for one that
    matches is never empty. *)
Theorem resolveAnthropicHttpModelId_throws_iff (requestedId : string)
    (fallbackModel : GlmFallback) :
  ((∃ e, resolveAnthropicHttpModelId requestedId fallbackModel = Throw e) ↔
   (GLM_HTTP_PATTERN_test requestedId = true ∧ fallbackModel = FallbackDisabled))
  ∧ (∀ e, resolveAnthropicHttpModelId requestedId fallbackModel = Throw e →
          e = Err (cliOnlyModelMessage requestedId))
  ∧ (GLM_HTTP_PATTERN_test requestedId = false →
     resolveAnthropicHttpModelId requestedId fallbackModel = Return requestedId)
  ∧ (GLM_HTTP_PATTERN_test requestedId = true →
     ∀ resolved, resolveAnthropicHttpModelId requestedId fallbackModel = Return resolved →
                 resolved ≠ EmptyString).
Proof.
  destruct (GLM_HTTP_PATTERN_test requestedId) eqn:Hglm.
  - destruct fallbackModel as [|model].
    + unfold resolveAnthropicHttpModelId. rewrite Hglm. simpl.
      split; [|split; [|split]]; try done.
      * split; [done|]. intros _. by eexists.
      * by intros e [= <-].
    + rewrite (resolveAnthropicHttpModelId_GLM _ _ Hglm).
      split; [|split; [|split]]; try done.
      * split; [by intros [e ?]|by intros [_ ?]].
      * intros _ resolved [= <-]. by case_decide.
  - rewrite (resolveAnthropicHttpModelId_not_GLM _ _ Hglm).
    split; [|split; [|split]]; try done.
    split; [by intros [e ?]|by intros [? _]].
Qed.

(** X10.  [resolveAnthropicHttpModelId] is idempotent for a fixed
    fallback: resolving the identifier it returns gives that identifier
    again. *)
Theorem resolveAnthropicHttpModelId_idempotent (requestedId : string)
    (fallbackModel : GlmFallback) :
  (resolved ← resolveAnthropicHttpModelId requestedId fallbackModel;
   resolveAnthropicHttpModelId resolved fallbackModel)
  = resolveAnthropicHttpModelId requestedId fallbackModel.
Proof.
  destruct (GLM_HTTP_PATTERN_test requestedId) eqn:Hglm.
  - destruct fallbackModel as [|model].
    + unfold resolveAnthropicHttpModelId. by rewrite Hglm.
    + rewrite (resolveAnthropicHttpModelId_GLM _ _ Hglm). simpl.
      case_decide as Hm.
      * by rewrite resolveAnthropicHttpModelId_not_GLM.
      * destruct (GLM_HTTP_PATTERN_test model) eqn:Hglm'.
        -- rewrite (resolveAnthropicHttpModelId_GLM _ _ Hglm'). by case_decide.
        -- by rewrite resolveAnthropicHttpModelId_not_GLM.
  - rewrite (resolveAnthropicHttpModelId_not_GLM _ _ Hglm). simpl.
    by rewrite resolveAnthropicHttpModelId_not_GLM.
Qed.

(** X11.  With a fallback that does not itself match the GLM pattern,
    resolution never throws and never returns an identifier that matches
    the pattern. *)
Theorem resolveAnthropicHttpModelId_never_GLM (requestedId model : string) :
  GLM_HTTP_PATTERN_test model = false →
  ∃ resolved,
    resolveAnthropicHttpModelId requestedId (FallbackTo model) = Return resolved
    ∧ GLM_HTTP_PATTERN_test resolved = false.
Proof.
  intros Hmodel. destruct (GLM_HTTP_PATTERN_test requestedId) eqn:Hglm.
  - rewrite (resolveAnthropicHttpModelId_GLM _ _ Hglm). eexists. split; [done|].
    by case_decide.
  - rewrite (resolveAnthropicHttpModelId_not_GLM _ _ Hglm). by eexists.
Qed.

Lemma resolveAnthropicHttpModelId_never_GLM_witness :
  GLM_HTTP_PATTERN_test "claude-3-5-sonnet-20241022" = false
  ∧ ∃ resolved,
      resolveAnthropicHttpModelId "GLM-4.6" (FallbackTo "claude-3-5-sonnet-20241022")
      = Return resolved
      ∧ GLM_HTTP_PATTERN_test resolved = false.
Proof.
  split; [reflexivity|].
  exact (resolveAnthropicHttpModelId_never_GLM "GLM-4.6" "claude-3-5-sonnet-20241022"
           eq_refl).
Defined.

Example resolveAnthropicHttpModelId_ex1 :
  resolveAnthropicHttpModelId "Glm-4.6" (FallbackTo EmptyString)
  = Return "claude-4.5-sonnet-20241022".
Proof. reflexivity. Qed.

Example resolveAnthropicHttpModelId_ex2 :
  resolveAnthropicHttpModelId "glm4.6" FallbackDisabled = Return "glm4.6".
Proof. reflexivity. Qed.

(** X12.  A provider made by [createZaiAnthropic] calls the Anthropic
    provider with the resolved API key, the given base URL (the built-in
    one with [/v1] appended when none is given) and the version header.  An
    identifier that does not match the GLM pattern is passed on unchanged,
    also when the fallback is disabled.  For one that matches, the target is
    decided by the first of the option, [ZAI_HTTP_FALLBACK_MODEL] and
    [ZAI_HTTP_MODEL] that is present: the call throws when it is the option
    [false], and otherwise goes to that value, or to the built-in model
    when that value is the empty string or when none is present. *)
Theorem createZaiAnthropic_spec {Model}
    (createAnthropic : AnthropicProviderSettings → string → Completion Model)
    (env : ProcessEnv) (options : CreateZaiAnthropicOptions)
    (provider : string → Completion Model) :
  createZaiAnthropic createAnthropic env options = Return provider →
  ∃ key,
    createZaiClaudeCode_apiKey (http_apiKey options) (env_ZAI_API_KEY env) = Return key
    ∧ let anthropic :=
        createAnthropic
          {| anthropic_apiKey := key;
             anthropic_baseURL :=
               nullish (http_baseURL options) "https://api.z.ai/api/anthropic/v1";
             anthropic_headers := {[ "anthropic-version" := "2023-06-01" ]} |} in
      let orDefault (model : string) :=
        if decide (model = EmptyString) then DEFAULT_HTTP_COMPAT_MODEL else model in
      (∀ modelId, GLM_HTTP_PATTERN_test modelId = false →
                  provider modelId = anthropic modelId)
      ∧ (∀ modelId, GLM_HTTP_PATTERN_test modelId = true →
           provider modelId =
           match glmFallbackModel options with
           | Some FallbackDisabled => Throw (Err (cliOnlyModelMessage modelId))
           | Some (FallbackTo model) => anthropic (orDefault model)
           | None =>
               match env_ZAI_HTTP_FALLBACK_MODEL env with
               | Some model => anthropic (orDefault model)
               | None =>
                   match env_ZAI_HTTP_MODEL env with
                   | Some model => anthropic (orDefault model)
                   | None => anthropic DEFAULT_HTTP_COMPAT_MODEL
                   end
               end
           end).
Proof.
  unfold createZaiAnthropic.
  destruct (createZaiClaudeCode_apiKey _ _) as [key|e]; simpl; [|done].
  intros [= <-]. exists key. split; [done|]. cbv zeta. split.
  - intros modelId Hglm. by rewrite (resolveAnthropicHttpModelId_not_GLM _ _ Hglm).
  - intros modelId Hglm. unfold createZaiAnthropic_glmFallbackModel.
    destruct (glmFallbackModel options) as [[|model]|]; simpl.
    + unfold resolveAnthropicHttpModelId. by rewrite Hglm.
    + by rewrite (resolveAnthropicHttpModelId_GLM _ _ Hglm).
    + rewrite (resolveAnthropicHttpModelId_GLM _ _ Hglm). simpl.
      destruct (env_ZAI_HTTP_FALLBACK_MODEL env) as [model|]; simpl; [done|].
      by destruct (env_ZAI_HTTP_MODEL env) as [model|].
Qed.

Lemma createZaiAnthropic_spec_witness :
  ∃ provider,
    createZaiAnthropic recordingAnthropic emptyFallbackEnv noHttpOptions = Return provider
    ∧ snd <$> provider "glm-4.6" = Return "claude-4.5-sonnet-20241022"
    ∧ snd <$> provider "claude-3-haiku" = Return "claude-3-haiku".
Proof.
  eexists. split; [reflexivity|].
  destruct (createZaiAnthropic_spec recordingAnthropic emptyFallbackEnv noHttpOptions
              _ eq_refl) as (key & _ & Hother & Hglm).
  split.
  - by rewrite (Hglm "glm-4.6" eq_refl).
  - by rewrite (Hother "claude-3-haiku" eq_refl).
Defined.

(** ** The lazily created default provider *)

Section LazyProviderFacts.
Context {Model : Type}.
Variable createClaudeCode : ClaudeCodeSettings → ClaudeCodeProvider Model.

Lemma lazy_run_initialised provider requests :
  lazy_run createClaudeCode requests (Some provider)
  = (Some provider, (λ r, dispatch provider r.2) <$> requests).
Proof.
  induction requests as [|[key request] requests IH]; [done|].
  simpl. by rewrite IH.
Qed.

Lemma lazy_run_app requests1 requests2 inner :
  lazy_run createClaudeCode (requests1 ++ requests2) inner =
  let '(inner1, results1) := lazy_run createClaudeCode requests1 inner in
  let '(inner2, results2) := lazy_run createClaudeCode requests2 inner1 in
  (inner2, results1 ++ results2).
Proof.
  revert inner. induction requests1 as [|[key request] requests1 IH]; intros inner.
  - simpl. by destruct (lazy_run _ requests2 inner).
  - simpl. destruct (lazy_request _ key request inner) as [inner' result].
    rewrite IH. destruct (lazy_run _ requests1 inner') as [inner1 results1].
    by destruct (lazy_run _ requests2 inner1).
Qed.

Lemma lazy_run_unusable requests :
  (∀ r, r ∈ requests → r.1 = None ∨ r.1 = Some EmptyString) →
  lazy_run createClaudeCode requests None
  = (None, (λ _, Throw (Err missingApiKeyMessage)) <$> requests).
Proof.
  induction requests as [|[key request] requests IH]; intros Hall; [done|].
  assert (Hkey : key = None ∨ key = Some EmptyString) by (apply (Hall (key, request)); left).
  assert (IH' := IH (λ r Hr, Hall r (list_elem_of_further _ _ _ Hr))).
  destruct Hkey as [->| ->]; simpl; by rewrite IH'.
Qed.

(** X13.  The lazy default provider creates its provider at the first use
    at which an API key is available and keeps it from then on.  Uses with
    the environment variable absent or empty fail with the missing-key
    error and leave the provider uncreated; the first use with a non-empty
    key creates the provider from that key and the default options; and
    every later use is served by that same provider, whatever the
    environment variable holds by then. *)
Theorem lazy_run_spec (before after : list (option string * ProviderRequest))
    (key : string) (request : ProviderRequest) :
  let provider :=
    wrapProviderWithModelResolution
      (createClaudeCode (createZaiClaudeCode_resolvedSettings key noOptions))
      (effectiveMappings None) in
  (∀ r, r ∈ before → r.1 = None ∨ r.1 = Some EmptyString) →
  key ≠ EmptyString →
  lazy_run createClaudeCode before None
    = (None, (λ _, Throw (Err missingApiKeyMessage)) <$> before)
  ∧ lazy_run createClaudeCode (before ++ (Some key, request) :: after) None
    = (Some provider,
       ((λ _, Throw (Err missingApiKeyMessage)) <$> before)
       ++ dispatch provider request :: ((λ r, dispatch provider r.2) <$> after)).
Proof.
  intros provider Hbefore Hkey.
  split; [by apply lazy_run_unusable|].
  rewrite lazy_run_app, (lazy_run_unusable before Hbefore).
  simpl. destruct key as [|c key]; [done|]. simpl.
  fold provider. by rewrite lazy_run_initialised.
Qed.

End LazyProviderFacts.

Lemma lazy_run_spec_witness :
  (fst (lazy_run recordingProvider
          [(None, RequestCall "glm-4.6" None);
           (Some "lazy-key", RequestCall "glm-4.6" None);
           (Some "other-key", RequestChat "haiku" None)] None)
     ≫= λ provider, Some (inv_modelId <$> provider_call provider "glm-4.5-air" None))
  = Some (Return "haiku").
Proof.
  destruct (lazy_run_spec recordingProvider
              [(None, RequestCall "glm-4.6" None)]
              [(Some "other-key", RequestChat "haiku" None)]
              "lazy-key" (RequestCall "glm-4.6" None)) as [_ H].
  - intros r Hr. apply list_elem_of_singleton in Hr as ->. by left.
  - discriminate.
  - simpl app in H. rewrite H. reflexivity.
Defined.

(** ** The appended system prompt *)

(** Turns a hypothesis on the byte classes into arithmetic. *)
Ltac byte_arith H :=
  unfold isWhiteSpace1, isWhiteSpace2, isWhiteSpace3 in H; cbv zeta in H;
  repeat first [rewrite orb_true_iff in H | rewrite andb_true_iff in H];
  rewrite ?N.eqb_eq, ?N.leb_le in H.

Ltac byte_false :=
  apply not_true_iff_false;
  let H := fresh in
  intros H; byte_arith H;
  change (N_of_ascii (ascii_of_nat 10)) with 10%N in H; lia.

Lemma isWhiteSpace2_not_1 b1 b2 : isWhiteSpace2 b1 b2 = true → isWhiteSpace1 b1 = false.
Proof. intros H. byte_arith H. byte_false. Qed.

Lemma isWhiteSpace3_not_1 b1 b2 b3 :
  isWhiteSpace3 b1 b2 b3 = true → isWhiteSpace1 b1 = false.
Proof. intros H. byte_arith H. byte_false. Qed.

Lemma isWhiteSpace3_not_2 b1 b2 b3 :
  isWhiteSpace3 b1 b2 b3 = true → isWhiteSpace2 b1 b2 = false.
Proof. intros H. byte_arith H. byte_false. Qed.

Lemma dropWhiteSpace_1 b1 :
  dropWhiteSpace [b1] = if isWhiteSpace1 b1 then [] else [b1].
Proof. done. Qed.

Lemma dropWhiteSpace_2 b1 b2 :
  dropWhiteSpace [b1; b2]
  = if isWhiteSpace1 b1 then dropWhiteSpace [b2]
    else if isWhiteSpace2 b1 b2 then [] else [b1; b2].
Proof. done. Qed.

Lemma dropWhiteSpace_3 b1 b2 b3 rest :
  dropWhiteSpace (b1 :: b2 :: b3 :: rest)
  = if isWhiteSpace1 b1 then dropWhiteSpace (b2 :: b3 :: rest)
    else if isWhiteSpace2 b1 b2 then dropWhiteSpace (b3 :: rest)
    else if isWhiteSpace3 b1 b2 b3 then dropWhiteSpace rest
    else b1 :: b2 :: b3 :: rest.
Proof. done. Qed.

Lemma dropWhiteSpace_reversed_1 b3 :
  dropWhiteSpace_reversed [b3] = if isWhiteSpace1 b3 then [] else [b3].
Proof. done. Qed.

Lemma dropWhiteSpace_reversed_2 b3 b2 :
  dropWhiteSpace_reversed [b3; b2]
  = if isWhiteSpace1 b3 then dropWhiteSpace_reversed [b2]
    else if isWhiteSpace2 b2 b3 then [] else [b3; b2].
Proof. done. Qed.

Lemma dropWhiteSpace_reversed_3 b3 b2 b1 rest :
  dropWhiteSpace_reversed (b3 :: b2 :: b1 :: rest)
  = if isWhiteSpace1 b3 then dropWhiteSpace_reversed (b2 :: b1 :: rest)
    else if isWhiteSpace2 b2 b3 then dropWhiteSpace_reversed (b1 :: rest)
    else if isWhiteSpace3 b1 b2 b3 then dropWhiteSpace_reversed rest
    else b3 :: b2 :: b1 :: rest.
Proof. done. Qed.

Lemma dropWhiteSpace_WhiteSpaceOnly bytes :
  WhiteSpaceOnly bytes → dropWhiteSpace bytes = [].
Proof.
  induction 1 as [|b1 rest H1 _ IH|b1 b2 rest H2 _ IH|b1 b2 b3 rest H3 _ IH]; simpl.
  - done.
  - by rewrite H1.
  - by rewrite (isWhiteSpace2_not_1 _ _ H2), H2.
  - by rewrite (isWhiteSpace3_not_1 _ _ _ H3), (isWhiteSpace3_not_2 _ _ _ H3), H3.
Qed.

(** Induction on byte lists by their length. *)
Lemma bytes_length_ind (P : list ascii → Prop) :
  (∀ bytes, (∀ shorter, length shorter < length bytes → P shorter) → P bytes) →
  ∀ bytes, P bytes.
Proof.
  intros Hstep bytes. remember (length bytes) as n eqn:Hn. revert bytes Hn.
  induction n as [n IH] using lt_wf_ind. intros bytes ->.
  apply Hstep. intros shorter Hlt. by apply (IH (length shorter)).
Qed.

Lemma WhiteSpaceOnly_dropWhiteSpace bytes :
  dropWhiteSpace bytes = [] → WhiteSpaceOnly bytes.
Proof.
  induction bytes as [bytes IH] using bytes_length_ind.
  destruct bytes as [|b1 [|b2 [|b3 rest]]].
  - constructor.
  - rewrite dropWhiteSpace_1.
    destruct (isWhiteSpace1 b1) eqn:H1; [|done]. intros _. by repeat constructor.
  - rewrite dropWhiteSpace_2. destruct (isWhiteSpace1 b1) eqn:H1.
    + intros H. constructor; [done|]. apply IH; [simpl; lia|done].
    + destruct (isWhiteSpace2 b1 b2) eqn:H2; [|done]. intros _.
      apply WhiteSpaceOnly_2; [done|constructor].
  - rewrite dropWhiteSpace_3. destruct (isWhiteSpace1 b1) eqn:H1.
    + intros H. constructor; [done|]. apply IH; [simpl; lia|done].
    + destruct (isWhiteSpace2 b1 b2) eqn:H2.
      * intros H. apply WhiteSpaceOnly_2; [done|]. apply IH; [simpl; lia|done].
      * destruct (isWhiteSpace3 b1 b2 b3) eqn:H3; [|done].
        intros H. apply WhiteSpaceOnly_3; [done|]. apply IH; [simpl; lia|done].
Qed.

Lemma dropWhiteSpace_idempotent bytes :
  dropWhiteSpace (dropWhiteSpace bytes) = dropWhiteSpace bytes.
Proof.
  induction bytes as [bytes IH] using bytes_length_ind.
  destruct bytes as [|b1 [|b2 [|b3 rest]]]; [done|..].
  - rewrite dropWhiteSpace_1.
    destruct (isWhiteSpace1 b1) eqn:H1; [done|]. by rewrite dropWhiteSpace_1, H1.
  - rewrite dropWhiteSpace_2.
    destruct (isWhiteSpace1 b1) eqn:H1; [apply IH; simpl; lia|].
    destruct (isWhiteSpace2 b1 b2) eqn:H2; [done|].
    by rewrite dropWhiteSpace_2, H1, H2.
  - rewrite dropWhiteSpace_3.
    destruct (isWhiteSpace1 b1) eqn:H1; [apply IH; simpl; lia|].
    destruct (isWhiteSpace2 b1 b2) eqn:H2; [apply IH; simpl; lia|].
    destruct (isWhiteSpace3 b1 b2 b3) eqn:H3; [apply IH; simpl; lia|].
    by rewrite dropWhiteSpace_3, H1, H2, H3.
Qed.

Lemma WhiteSpaceOnly_app bytes1 bytes2 :
  WhiteSpaceOnly bytes1 → WhiteSpaceOnly bytes2 → WhiteSpaceOnly (bytes1 ++ bytes2).
Proof.
  induction 1; intros H2; simpl; [done|..].
  - apply WhiteSpaceOnly_1; auto.
  - apply WhiteSpaceOnly_2; auto.
  - apply WhiteSpaceOnly_3; auto.
Qed.

Lemma WhiteSpaceOnly_dropWhiteSpace_reversed bytes :
  dropWhiteSpace_reversed bytes = [] → WhiteSpaceOnly (reverse bytes).
Proof.
  induction bytes as [bytes IH] using bytes_length_ind.
  destruct bytes as [|b3 [|b2 [|b1 rest]]].
  - constructor.
  - rewrite dropWhiteSpace_reversed_1.
    destruct (isWhiteSpace1 b3) eqn:H1; [|done]. intros _. by repeat constructor.
  - rewrite dropWhiteSpace_reversed_2. destruct (isWhiteSpace1 b3) eqn:H1.
    + intros H. rewrite reverse_cons. apply WhiteSpaceOnly_app.
      * apply IH; [simpl; lia|done].
      * by repeat constructor.
    + destruct (isWhiteSpace2 b2 b3) eqn:H2; [|done]. intros _.
      apply WhiteSpaceOnly_2; [done|constructor].
  - rewrite dropWhiteSpace_reversed_3. destruct (isWhiteSpace1 b3) eqn:H1.
    + intros H. rewrite reverse_cons. apply WhiteSpaceOnly_app.
      * apply IH; [simpl; lia|done].
      * by repeat constructor.
    + destruct (isWhiteSpace2 b2 b3) eqn:H2.
      * intros H. rewrite (reverse_cons _ b3), (reverse_cons _ b2), <-app_assoc.
        apply WhiteSpaceOnly_app.
        -- apply IH; [simpl; lia|done].
        -- apply WhiteSpaceOnly_2; [done|constructor].
      * destruct (isWhiteSpace3 b1 b2 b3) eqn:H3; [|done].
        intros H.
        rewrite (reverse_cons _ b3), (reverse_cons _ b2), (reverse_cons _ b1), <-!app_assoc.
        apply WhiteSpaceOnly_app.
        -- apply IH; [simpl; lia|done].
        -- apply WhiteSpaceOnly_3; [done|constructor].
Qed.

Lemma string_of_list_ascii_empty bytes :
  string_of_list_ascii bytes = EmptyString ↔ bytes = [].
Proof. by destruct bytes. Qed.

Lemma list_ascii_of_string_app s1 s2 :
  list_ascii_of_string (s1 +:+ s2) = list_ascii_of_string s1 ++ list_ascii_of_string s2.
Proof. induction s1 as [|b s1 IH]; simpl; [done|by rewrite IH]. Qed.

Lemma dropWhiteSpace_reversed_nil bytes :
  dropWhiteSpace_reversed bytes = [] → dropWhiteSpace (reverse bytes) = [].
Proof.
  intros H. by apply dropWhiteSpace_WhiteSpaceOnly, WhiteSpaceOnly_dropWhiteSpace_reversed.
Qed.

(** [s.trim()] is empty exactly when [s] holds white space only. *)
Lemma trim_empty s : trim s = EmptyString ↔ dropWhiteSpace (list_ascii_of_string s) = [].
Proof.
  unfold trim, trimEnd, trimStart.
  rewrite string_of_list_ascii_empty, list_ascii_of_string_of_list_ascii.
  split.
  - intros H. apply (f_equal reverse) in H. rewrite reverse_involutive in H.
    apply dropWhiteSpace_reversed_nil in H.
    by rewrite reverse_involutive, dropWhiteSpace_idempotent in H.
  - by intros ->.
Qed.

Lemma is_blank_spec s : is_blank s = true ↔ blank s.
Proof.
  unfold is_blank, blank. split.
  - destruct (dropWhiteSpace _) eqn:H; [|done]. intros _.
    by apply WhiteSpaceOnly_dropWhiteSpace.
  - intros H. by rewrite (dropWhiteSpace_WhiteSpaceOnly _ H).
Qed.

Lemma truthy_trim s : truthy (trim s) = negb (is_blank s).
Proof.
  unfold is_blank. destruct (dropWhiteSpace (list_ascii_of_string s)) eqn:H.
  - apply trim_empty in H. by rewrite H.
  - destruct (trim s) eqn:Ht; [|done].
    apply trim_empty in Ht. congruence.
Qed.

(** The line feed is no byte of a white space code point of two or three
    bytes: white space before a line feed ends before it. *)
Lemma dropWhiteSpace_before_newline bytes rest :
  dropWhiteSpace (bytes ++ ascii_of_nat 10 :: rest) = [] → dropWhiteSpace bytes = [].
Proof.
  induction bytes as [bytes IH] using bytes_length_ind.
  destruct bytes as [|b1 [|b2 [|b3 bytes]]]; [done|..].
  - rewrite dropWhiteSpace_1. destruct (isWhiteSpace1 b1) eqn:H1; [done|].
    assert (H2 : isWhiteSpace2 b1 (ascii_of_nat 10) = false) by byte_false.
    destruct rest as [|b3 rest].
    + change ([b1] ++ [ascii_of_nat 10]) with [b1; ascii_of_nat 10].
      by rewrite dropWhiteSpace_2, H1, H2.
    + change ([b1] ++ ascii_of_nat 10 :: b3 :: rest)
        with (b1 :: ascii_of_nat 10 :: b3 :: rest).
      assert (H3 : isWhiteSpace3 b1 (ascii_of_nat 10) b3 = false) by byte_false.
      by rewrite dropWhiteSpace_3, H1, H2, H3.
  - change ([b1; b2] ++ ascii_of_nat 10 :: rest) with (b1 :: b2 :: ascii_of_nat 10 :: rest).
    rewrite dropWhiteSpace_3, dropWhiteSpace_2.
    destruct (isWhiteSpace1 b1) eqn:H1.
    { intros H. apply (IH [b2]); [simpl; lia|done]. }
    destruct (isWhiteSpace2 b1 b2) eqn:H2; [done|].
    assert (H3 : isWhiteSpace3 b1 b2 (ascii_of_nat 10) = false) by byte_false.
    by rewrite H3.
  - change ((b1 :: b2 :: b3 :: bytes) ++ ascii_of_nat 10 :: rest)
      with (b1 :: b2 :: b3 :: (bytes ++ ascii_of_nat 10 :: rest)).
    rewrite !dropWhiteSpace_3.
    destruct (isWhiteSpace1 b1) eqn:H1.
    { intros H. apply (IH (b2 :: b3 :: bytes)); [simpl; lia|done]. }
    destruct (isWhiteSpace2 b1 b2) eqn:H2.
    { intros H. apply (IH (b3 :: bytes)); [simpl; lia|done]. }
    destruct (isWhiteSpace3 b1 b2 b3) eqn:H3; [|done].
    intros H. apply (IH bytes); [simpl; lia|done].
Qed.

Lemma is_blank_before_newline s1 s2 :
  is_blank s1 = false → is_blank (s1 +:+ newline +:+ s2) = false.
Proof.
  unfold is_blank. rewrite list_ascii_of_string_app. simpl.
  intros H1.
  destruct (dropWhiteSpace (_ ++ _)) eqn:H; [|done].
  apply dropWhiteSpace_before_newline in H. by rewrite H in H1.
Qed.

Lemma hasContent_is_blank part :
  hasContent part =
  match part with
  | Some s => negb (is_blank s)
  | None => false
  end.
Proof. destruct part; [apply truthy_trim|done]. Qed.

(** What [mergeSystemPromptAppend] keeps of a part. *)
Lemma mergeSystemPromptAppend_cases (customAppend userAppend : option string) :
  let kept (part : option string) :=
    match part with
    | Some s => if is_blank s then None else Some s
    | None => None
    end in
  mergeSystemPromptAppend customAppend userAppend =
    match kept customAppend, kept userAppend with
    | Some custom, Some user => Some (custom +:+ newline +:+ newline +:+ user)
    | Some custom, None => Some custom
    | None, Some user => Some user
    | None, None => None
    end.
Proof.
  intros kept. unfold mergeSystemPromptAppend, kept. simpl.
  rewrite !hasContent_is_blank.
  destruct customAppend as [custom|], userAppend as [user|]; simpl.
  - by destruct (is_blank custom), (is_blank user).
  - by destruct (is_blank custom).
  - by destruct (is_blank user).
  - done.
Qed.

Lemma kept_None (part : option string) :
  match part with
  | Some s => if is_blank s then None else Some s
  | None => None
  end = None ↔ ∀ s, part = Some s → blank s.
Proof.
  destruct part as [s|]; [|done]. destruct (is_blank s) eqn:H.
  - split; [|done]. intros _ s' [= <-]. by apply is_blank_spec.
  - split; [done|]. intros Hb. specialize (Hb s eq_refl).
    apply is_blank_spec in Hb. congruence.
Qed.

Lemma merged_append_None_iff (customAppend userAppend : option string) :
  mergeSystemPromptAppend customAppend userAppend = None ↔
  (∀ s, customAppend = Some s → blank s) ∧ (∀ s, userAppend = Some s → blank s).
Proof.
  rewrite mergeSystemPromptAppend_cases, <-!kept_None.
  destruct (match customAppend with Some _ => _ | None => _ end),
           (match userAppend with Some _ => _ | None => _ end);
    split; try done; by intros [? ?].
Qed.

Lemma merged_append_not_blank (customAppend userAppend : option string)
    (result : string) :
  mergeSystemPromptAppend customAppend userAppend = Some result →
  is_blank result = false.
Proof.
  rewrite mergeSystemPromptAppend_cases.
  destruct customAppend as [custom|], userAppend as [user|].
  - destruct (is_blank custom) eqn:Hc, (is_blank user) eqn:Hu;
      [done| | |]; intros [= <-]; try done.
    by apply is_blank_before_newline.
  - destruct (is_blank custom) eqn:Hc; [done|]. by intros [= <-].
  - destruct (is_blank user) eqn:Hu; [done|]. by intros [= <-].
  - done.
Qed.

(** X14.  [mergeSystemPromptAppend] drops a part that is absent or
    consists of white space only (the white space of [trim], U+3000 and
    U+00A0 included), returns [undefined] exactly when it drops both,
    returns a single remaining part as it is (untrimmed), and joins two
    remaining parts with a blank line, the custom part first. *)
Theorem mergeSystemPromptAppend_spec (customAppend userAppend : option string) :
  let kept (part : option string) :=
    match part with
    | Some s => if is_blank s then None else Some s
    | None => None
    end in
  mergeSystemPromptAppend customAppend userAppend =
    match kept customAppend, kept userAppend with
    | Some custom, Some user => Some (custom +:+ newline +:+ newline +:+ user)
    | Some custom, None => Some custom
    | None, Some user => Some user
    | None, None => None
    end
  ∧ (mergeSystemPromptAppend customAppend userAppend = None ↔
     (∀ s, customAppend = Some s → blank s) ∧ (∀ s, userAppend = Some s → blank s))
  ∧ (∀ s, is_blank s = true ↔ blank s)
  ∧ (∀ s, is_blank s = true ↔ trim s = EmptyString).
Proof.
  intros kept. split; [apply mergeSystemPromptAppend_cases|].
  split; [apply merged_append_None_iff|].
  split; [apply is_blank_spec|].
  intros s. rewrite trim_empty. unfold is_blank.
  by destruct (dropWhiteSpace _).
Qed.

(** X15.  The appended prompt [mergeSystemPromptAppend] returns is never
    empty or white space only. *)
Theorem mergeSystemPromptAppend_not_blank (customAppend userAppend : option string)
    (result : string) :
  mergeSystemPromptAppend customAppend userAppend = Some result →
  is_blank result = false ∧ ¬ blank result ∧ trim result ≠ EmptyString.
Proof.
  intros H. apply merged_append_not_blank in H.
  split; [done|]. split.
  - intros Hb. apply is_blank_spec in Hb. congruence.
  - intros Ht. apply trim_empty in Ht. unfold is_blank in H. by rewrite Ht in H.
Qed.

Lemma mergeSystemPromptAppend_not_blank_witness :
  mergeSystemPromptAppend (Some "Do not call Bash.") (Some ideographicSpace)
    = Some "Do not call Bash."
  ∧ is_blank "Do not call Bash." = false
  ∧ ¬ blank "Do not call Bash."
  ∧ trim "Do not call Bash." ≠ EmptyString.
Proof.
  assert (H : mergeSystemPromptAppend (Some "Do not call Bash.")
                (Some ideographicSpace) = Some "Do not call Bash.") by reflexivity.
  split; [exact H|].
  exact (mergeSystemPromptAppend_not_blank _ _ _ H).
Defined.

Example trim_ex : trim "  a b  " = "a b".
Proof. reflexivity. Qed.

Example trim_unicode_ex :
  trim (ideographicSpace +:+ " a" +:+ noBreakSpace +:+ newline) = "a".
Proof. reflexivity. Qed.

Example mergeSystemPromptAppend_ex :
  mergeSystemPromptAppend (Some "first") (Some "second")
  = Some ("first" +:+ newline +:+ newline +:+ "second").
Proof. reflexivity. Qed.

Example mergeSystemPromptAppend_ideographicSpace :
  mergeSystemPromptAppend None (Some ideographicSpace) = None.
Proof. reflexivity. Qed.

Example mergeSystemPromptAppend_noBreakSpace :
  mergeSystemPromptAppend (Some noBreakSpace) (Some " ") = None.
Proof. reflexivity. Qed.

(** ** The resolved settings, continued *)

(** X16.  In custom-tools-only mode the resolved tool lists, prompt and
    servers depend on the policy and the default settings only: the API
    key, the [includeDefaultAllowedTools] and [enable...Mcp] flags, the
    vision command and the model mappings have no influence. *)
Theorem customToolsOnly_ignores_flags (key1 key2 : string)
    (options1 options2 : CreateZaiClaudeCodeOptions) :
  enabled (normalizeCustomToolsOnlyOptions (customToolsOnly options1)) = true →
  customToolsOnly options1 = customToolsOnly options2 →
  defaultSettings options1 = defaultSettings options2 →
  createZaiClaudeCode_resolvedSettings key1 options1
  = createZaiClaudeCode_resolvedSettings key2 options2.
Proof.
  intros Hon Hpolicy Hdefaults. unfold createZaiClaudeCode_resolvedSettings.
  rewrite <-Hpolicy, <-Hdefaults, Hon. reflexivity.
Qed.

Lemma customToolsOnly_ignores_flags_witness :
  createZaiClaudeCode_resolvedSettings "unit-key" guardrailOptions
  = createZaiClaudeCode_resolvedSettings "other-key" guardrailFlagsOptions.
Proof.
  exact (customToolsOnly_ignores_flags "unit-key" "other-key" guardrailOptions
           guardrailFlagsOptions eq_refl eq_refl eq_refl).
Defined.

Lemma NoDup_enabledToolGroups options : NoDup (enabledToolGroups options).
Proof.
  unfold enabledToolGroups.
  destruct (nullish (includeDefaultAllowedTools options) true),
    (nullish (enableWebSearchMcp options) true),
    (nullish (enableWebReaderMcp options) true),
    (nullish (enableVisionMcp options) true); by_compute.
Qed.

Lemma resolved_allowedTools_inactive key options :
  enabled (normalizeCustomToolsOnlyOptions (customToolsOnly options)) = false →
  allowedTools (createZaiClaudeCode_resolvedSettings key options)
  = mergeAllowedTools (enabledToolGroups options)
      (allowedTools (nullish (defaultSettings options) noSettings)).
Proof.
  intros Hoff. unfold createZaiClaudeCode_resolvedSettings. simpl. by rewrite Hoff.
Qed.

(** X17.  With the custom-tools-only policy inactive, the resolved
    allowlist starts with the built-in tool groups whose option is not
    [false], has no repeated entry, and holds exactly the tools of those
    groups and the non-empty entries of the allowlist of the default
    settings; it is absent exactly when every group is switched off and the
    default settings list no non-empty tool. *)
Theorem default_allowlist_spec (key : string) (options : CreateZaiClaudeCodeOptions) :
  enabled (normalizeCustomToolsOnlyOptions (customToolsOnly options)) = false →
  let resolved := allowedTools (createZaiClaudeCode_resolvedSettings key options) in
  let user := default [] (allowedTools (nullish (defaultSettings options) noSettings)) in
  (∀ allowed, resolved = Some allowed →
     NoDup allowed
     ∧ enabledToolGroups options `prefix_of` allowed
     ∧ ∀ t, t ∈ allowed ↔ t ∈ enabledToolGroups options ∨ (t ∈ user ∧ t ≠ EmptyString))
  ∧ (resolved = None ↔
     enabledToolGroups options = [] ∧ ∀ t, t ∈ user → t = EmptyString).
Proof.
  intros Hoff resolved user. unfold resolved.
  rewrite (resolved_allowedTools_inactive key options Hoff), mergeAllowedTools_merged.
  fold user. split.
  - intros allowed Hallowed. apply lengthOrUndefined_Some in Hallowed as [<- _].
    split; [apply NoDup_spec_merged, NoDup_enabledToolGroups|].
    split; [by apply prefix_app_r|].
    intros t. rewrite elem_of_spec_merged. fold user.
    destruct (decide (t ∈ enabledToolGroups options)); tauto.
  - rewrite lengthOrUndefined_None. unfold spec_merged. fold user. split.
    + intros Hnil. apply app_eq_nil in Hnil as [Hgroups Hadded].
      split; [done|]. intros t Ht.
      apply (proj1 (first_occurrences_eq_nil _)) in Hadded.
      destruct (decide (t = EmptyString)) as [|Hne]; [done|]. exfalso.
      assert (Hin : t ∈ filter (appendable (enabledToolGroups options)) user).
      { apply list_elem_of_filter. split; [split; [done|]|done].
        rewrite Hgroups. apply not_elem_of_nil. }
      rewrite Hadded in Hin. by apply elem_of_nil in Hin.
    + intros [Hgroups Huser]. rewrite Hgroups. simpl.
      apply first_occurrences_eq_nil.
      destruct (filter _ user) as [|t l] eqn:Hf; [done|]. exfalso.
      assert (Hin : t ∈ filter (appendable []) user) by (rewrite Hf; left).
      apply list_elem_of_filter in Hin as [[Hne _] Ht]. by apply Hne, Huser.
Qed.

Lemma default_allowlist_spec_witness :
  allowedTools (createZaiClaudeCode_resolvedSettings "unit-key" blocklistOptions) ≠ None
  ∧ NoDup (CORE_ALLOWED_TOOLS ++ WEB_SEARCH_ALLOWED_TOOLS
           ++ WEB_READER_ALLOWED_TOOLS ++ VISION_ALLOWED_TOOLS).
Proof.
  destruct (default_allowlist_spec "unit-key" blocklistOptions eq_refl) as [Hsome _].
  split; [discriminate|]. exact (proj1 (Hsome _ eq_refl)).
Defined.

Lemma mergeMcpServers_builtin key vision reader search user visionCommand k :
  is_Some (builtinMcpServers key vision reader search visionCommand !! k) →
  ∃ servers, mergeMcpServers key vision reader search user visionCommand = Some servers
             ∧ is_Some (servers !! k).
Proof.
  intros Hk. unfold mergeMcpServers. destruct user as [user|].
  - eexists. split; [done|]. rewrite lookup_union.
    destruct Hk as [d ->]. by destruct (user !! k).
  - destruct (size _) eqn:Hsize; [|by eexists].
    apply map_size_empty_iff in Hsize. rewrite Hsize, lookup_empty in Hk.
    by destruct Hk.
Qed.

Lemma allowed_of_group key options group t :
  enabled (normalizeCustomToolsOnlyOptions (customToolsOnly options)) = false →
  t ∈ group → group ⊆ enabledToolGroups options →
  ∃ allowed, allowedTools (createZaiClaudeCode_resolvedSettings key options) = Some allowed
             ∧ t ∈ allowed.
Proof.
  intros Hoff Ht Hgroup.
  rewrite (resolved_allowedTools_inactive key options Hoff), mergeAllowedTools_merged.
  assert (Hin : t ∈ spec_merged (enabledToolGroups options)
                     (allowedTools (nullish (defaultSettings options) noSettings))).
  { apply elem_of_spec_merged. left. by apply Hgroup. }
  destruct (spec_merged _ _) as [|x l] eqn:Hm; [by apply elem_of_nil in Hin|].
  by eexists.
Qed.

(** X18.  With the custom-tools-only policy inactive, a capability whose
    enable option is not [false] is wired on both sides: each of its tool
    names is in the resolved allowlist and its server key is defined in the
    resolved server mapping. *)
Theorem enabled_capability_is_wired (key : string) (options : CreateZaiClaudeCodeOptions) :
  enabled (normalizeCustomToolsOnlyOptions (customToolsOnly options)) = false →
  let resolved := createZaiClaudeCode_resolvedSettings key options in
  let wired (tools : list string) (server : string) :=
    (∀ t, t ∈ tools → ∃ allowed, allowedTools resolved = Some allowed ∧ t ∈ allowed)
    ∧ ∃ servers, mcpServers resolved = Some servers ∧ is_Some (servers !! server) in
  (nullish (enableWebSearchMcp options) true = true →
   wired WEB_SEARCH_ALLOWED_TOOLS "web-search-prime")
  ∧ (nullish (enableWebReaderMcp options) true = true →
     wired WEB_READER_ALLOWED_TOOLS "web-reader")
  ∧ (nullish (enableVisionMcp options) true = true →
     wired VISION_ALLOWED_TOOLS "zai-vision").
Proof.
  intros Hoff resolved wired. unfold wired, resolved.
  rewrite resolved_mcpServers. cbv zeta. rewrite Hoff, !andb_true_r.
  split; [|split]; intros Hflag; (split;
    [ intros t Ht; apply (allowed_of_group key options _ t Hoff Ht);
      unfold enabledToolGroups; rewrite Hflag; intros x Hx;
      rewrite !elem_of_app; tauto
    | apply mergeMcpServers_builtin; rewrite builtinMcpServers_lookup, Hflag;
      repeat case_decide; try done;
      destruct (nullish _ true); by eexists ]).
Qed.

Lemma enabled_capability_is_wired_witness :
  nullish (enableVisionMcp blocklistOptions) true = true
  ∧ ∃ servers,
      mcpServers (createZaiClaudeCode_resolvedSettings "unit-key" blocklistOptions)
      = Some servers
      ∧ is_Some (servers !! "zai-vision").
Proof.
  split; [reflexivity|].
  exact (proj2 (proj2 (proj2 (enabled_capability_is_wired "unit-key" blocklistOptions
                                eq_refl)) eq_refl)).
Defined.

(** ** Forced tool injection, continued *)

(** X19.  When the tool's [execute] throws, [forceCustomTools] fails with
    that same error after this one call: [streamText] is not called. *)
Theorem forceCustomTools_execute_throws {Input Output Model Stream}
    (streamText : StreamTextArgs Input Output Model → Completion Stream)
    (a : ForceCustomToolsArgs Input Output Model) tool handler e :
  tools a !! toolName a = Some tool →
  execute tool = Some handler →
  handler (toolInput a)
    {| toolCallId := "forced:" +:+ toolName a; exec_messages := messages a |} = Throw e →
  forceCustomTools streamText a
  = {| calls := [ExecuteCall (toolName a) (toolInput a)
                   {| toolCallId := "forced:" +:+ toolName a;
                      exec_messages := messages a |}];
       outcome := Throw e |}.
Proof.
  intros Htool Hexec Hthrow.
  rewrite (forceCustomTools_executable streamText a tool handler Htool Hexec).
  cbv zeta. by rewrite Hthrow.
Qed.

Lemma forceCustomTools_execute_throws_witness :
  forceCustomTools echoStream failingArgs
  = {| calls := [ExecuteCall "broken_tool" "input"
                   {| toolCallId := "forced:broken_tool"; exec_messages := [] |}];
       outcome := Throw (Err "tool failed") |}.
Proof.
  exact (forceCustomTools_execute_throws echoStream failingArgs _ _ _
           eq_refl eq_refl eq_refl).
Defined.

(** ** The prompts of the resolved settings *)

(** X20.  In custom-tools-only mode the resolved settings always carry a
    system prompt: the policy's when it gives one (also an empty one),
    otherwise the one of the default settings, otherwise the built-in
    guardrail text.  With the policy inactive the system prompt of the
    default settings is passed on as it is, absent when they give none. *)
Theorem resolved_systemPrompt (key : string) (options : CreateZaiClaudeCodeOptions) :
  let userDefaults := nullish (defaultSettings options) noSettings in
  let resolved := createZaiClaudeCode_resolvedSettings key options in
  (∀ arg, customToolsOnly options = Some arg → arg ≠ CtoFlag false →
     systemPrompt resolved =
     Some match cto_systemPrompt (customToolsOnly_options arg), systemPrompt userDefaults with
          | Some prompt, _ => prompt
          | None, Some prompt => prompt
          | None, None => DEFAULT_CUSTOM_TOOLS_SYSTEM_PROMPT
          end)
  ∧ (customToolsOnly options = None ∨ customToolsOnly options = Some (CtoFlag false) →
     systemPrompt resolved = systemPrompt userDefaults).
Proof.
  intros userDefaults resolved. unfold resolved, createZaiClaudeCode_resolvedSettings.
  split.
  - intros arg -> Harg. destruct arg as [[]|policy]; simpl; [done|done|].
    by destruct (cto_systemPrompt policy).
  - by intros [->| ->].
Qed.

(** X21.  In custom-tools-only mode the resolved appended prompt is never
    empty or white space only, and it is absent exactly when the policy's
    and the default settings' appended prompts are both absent or blank;
    with the policy inactive the appended prompt of the default settings is
    passed on as it is, blank or not. *)
Theorem resolved_appendSystemPrompt (options : CreateZaiClaudeCodeOptions)
    (userAppend : option string) :
  let resolved := createZaiClaudeCode_appendSystemPrompt options userAppend in
  let blank_or_absent (part : option string) := ∀ s, part = Some s → blank s in
  (∀ arg, customToolsOnly options = Some arg → arg ≠ CtoFlag false →
     resolved = mergeSystemPromptAppend
                  (cto_appendSystemPrompt (customToolsOnly_options arg)) userAppend
     ∧ (∀ s, resolved = Some s → ¬ blank s)
     ∧ (resolved = None ↔
        blank_or_absent (cto_appendSystemPrompt (customToolsOnly_options arg))
        ∧ blank_or_absent userAppend))
  ∧ (customToolsOnly options = None ∨ customToolsOnly options = Some (CtoFlag false) →
     resolved = userAppend).
Proof.
  intros resolved blank_or_absent.
  unfold resolved, createZaiClaudeCode_appendSystemPrompt.
  split; [|by intros [->| ->]].
  intros arg -> Harg.
  assert (Hnorm : ∀ A (x y : A),
    (if enabled (normalizeCustomToolsOnlyOptions (Some arg)) then x else y) = x
    ∧ n_appendSystemPrompt (normalizeCustomToolsOnlyOptions (Some arg))
      = cto_appendSystemPrompt (customToolsOnly_options arg)).
  { intros A x y. by destruct arg as [[]|policy]. }
  destruct (Hnorm _ (mergeSystemPromptAppend
                       (n_appendSystemPrompt (normalizeCustomToolsOnlyOptions (Some arg)))
                       userAppend) userAppend) as [-> ->].
  split; [done|]. split.
  - intros s Hs Hb. apply merged_append_not_blank in Hs.
    apply is_blank_spec in Hb. congruence.
  - apply merged_append_None_iff.
Qed.

(** ** The provider as a whole *)

(** X22.  A model requested from a provider made by [createZaiClaudeCode]
    reaches the transport with the settings resolved at creation from a
    non-empty API key as default settings, with one of the three alias
    names as model identifier, and with the per-call settings as they were
    given. *)
Theorem createZaiClaudeCode_invocation (ZAI_API_KEY : option string)
    (options : CreateZaiClaudeCodeOptions) (provider : ClaudeCodeProvider BaseInvocation)
    (modelId : string) (settings : option ClaudeCodeSettings)
    (invocation : BaseInvocation) :
  createZaiClaudeCode recordingProvider ZAI_API_KEY options = Return provider →
  provider_call provider modelId settings = Return invocation →
  ∃ key,
    createZaiClaudeCode_apiKey (apiKey options) ZAI_API_KEY = Return key
    ∧ key ≠ EmptyString
    ∧ inv_defaultSettings invocation = createZaiClaudeCode_resolvedSettings key options
    ∧ resolveModelId modelId (effectiveMappings (modelMappings options))
      = Return (inv_modelId invocation)
    ∧ inv_modelId invocation ∈ CLAUDE_ALIASES
    ∧ inv_settings invocation = settings
    ∧ inv_entry invocation = EpCall.
Proof.
  intros Hcreate Hcall.
  apply createZaiClaudeCode_Return in Hcreate as (key & Hkey & ->).
  exists key. split; [done|]. split.
  { unfold createZaiClaudeCode_apiKey in Hkey.
    destruct (apiKey options) as [k|]; [|destruct ZAI_API_KEY as [k|]; [|done]];
      destruct k; simpl in Hkey; by simplify_eq. }
  simpl in Hcall.
  destruct (resolveModelId modelId _) as [resolved|e] eqn:Hres; simpl in Hcall; [|done].
  injection Hcall as <-. simpl. repeat split; try done.
  by eapply resolveModelId_Return_alias.
Qed.

Lemma createZaiClaudeCode_invocation_witness :
  ∃ provider invocation,
    createZaiClaudeCode recordingProvider None guardrailOptions = Return provider
    ∧ provider_call provider "glm-4.6" None = Return invocation
    ∧ inv_modelId invocation = "sonnet"
    ∧ allowedTools (inv_defaultSettings invocation) = Some ["CustomTool"; "AnotherTool"].
Proof.
  eexists _, _. split; [reflexivity|]. split; [reflexivity|].
  destruct (createZaiClaudeCode_invocation None guardrailOptions _ "glm-4.6" None _
              eq_refl eq_refl) as (key & _ & _ & _ & _ & _ & _ & _).
  split; reflexivity.
Defined.

(** X23.  The descriptor of the vision server runs the given command (or
    [npx -y @z_ai/mcp-server]) with the given arguments (or the built-in
    ones), and its environment holds the entries of the command's [env],
    which replace the generated ones, next to the API key and the mode. *)
Theorem visionDescriptor_spec (key : string) (visionCommand : option VisionCommand) :
  let command := default "npx" (vc_command <$> visionCommand) in
  let args := default ["-y"; "@z_ai/mcp-server"] (visionCommand ≫= vc_args) in
  let user := default ∅ (visionCommand ≫= vc_env) in
  ∃ env,
    visionDescriptor key visionCommand = McpStdio command (Some args) (Some env)
    ∧ (∀ k v, user !! k = Some v → env !! k = Some v)
    ∧ (user !! "Z_AI_API_KEY" = None → env !! "Z_AI_API_KEY" = Some (Some key))
    ∧ (user !! "Z_AI_MODE" = None → env !! "Z_AI_MODE" = Some (Some "ZAI"))
    ∧ (∀ k, env !! k = None ↔
            user !! k = None ∧ k ≠ "Z_AI_API_KEY" ∧ k ≠ "Z_AI_MODE").
Proof.
  intros command args user. unfold visionDescriptor.
  eexists. split.
  { unfold command, args. destruct visionCommand as [[cmd [a|] e]|]; reflexivity. }
  assert (Huser : nullish (vc_env (nullish visionCommand
            {| vc_command := "npx"; vc_args := Some ["-y"; "@z_ai/mcp-server"];
               vc_env := None |})) ∅ = user).
  { unfold user. by destruct visionCommand as [[cmd a [e|]]|]. }
  rewrite Huser. split; [|split; [|split]].
  - intros k v Hk. by apply lookup_union_Some_l.
  - intros Hk. rewrite lookup_union_r by done. by simplify_map_eq.
  - intros Hk. rewrite lookup_union_r by done. by simplify_map_eq.
  - intros k. rewrite lookup_union_None, !lookup_insert_None, lookup_empty.
    split; [intros (? & (_ & ?) & ?)|intros (? & ? & ?)]; repeat split; congruence.
Qed.
